(** * Audio visualizer dashboard: embedding of the data-handling code

    The repository is a React dashboard.  What it computes on data lives in
    three components:

    - [AudioVisualizer]: the per-frame sampling closure [updateData], the
      recording handlers ([handleStartRecording], [handleStopRecording],
      [handleSaveRecording]), the microphone acquisition effect and the tab
      selector;
    - [SpectrographVisualizer]: the effect that runs [processSpectrum] and
      keeps the bounded [spectrumHistory];
    - [TimeSeriesVisualizer]: the effect that keeps the bounded
      [timeSeriesData].

    JavaScript numbers are IEEE 754 binary64 values and the elements of a
    [Float32Array] are binary32 values; both are embedded with the
    executable specification of the Rocq core library ([spec_float]), so
    every definition below evaluates on concrete inputs. *)

From Stdlib Require Import String Ascii DecimalString.
From Stdlib Require Import ZArith List Bool Lia.
From Stdlib Require Import Floats.SpecFloat.
Import ListNotations.

Set Implicit Arguments.

(** ** JavaScript numbers *)

Module JS.

Definition number : Type := spec_float.

(** The integer [z] as a binary64 number. *)
Definition of_Z (z : Z) : number := binary_normalize 53 1024 z 0 false.

(** The dyadic literal [m * 2^e] as a binary64 number (0.5 is [dyadic 1 (-1)]). *)
Definition dyadic (m e : Z) : number := binary_normalize 53 1024 m e false.

Definition of_nat (n : nat) : number := of_Z (Z.of_nat n).

(** Reading an element of a [Float32Array] yields the same value as a
    binary64 number: the mantissa is realigned, nothing is rounded. *)
Definition promote (x : number) : number :=
  match x with
  | S754_finite s m e => binary_round 53 1024 s m e
  | _ => x
  end.

(** Storing a number into a [Float32Array] rounds it to binary32
    (round to nearest, ties to even). *)
Definition fround (x : number) : number :=
  match x with
  | S754_finite s m e => binary_round 24 128 s m e
  | _ => x
  end.

Definition mul (x y : number) : number := SFmul 53 1024 x y.
Definition add (x y : number) : number := SFadd 53 1024 x y.
Definition div (x y : number) : number := SFdiv 53 1024 x y.

Definition Math_abs (x : number) : number := SFabs x.

(** [Math.max] and [Math.min]: NaN is contagious and [+0] is larger than [-0]. *)
Definition Math_max (a b : number) : number :=
  match SFcompare a b with
  | None => S754_nan
  | Some Lt => b
  | Some Gt => a
  | Some Eq => match a with S754_zero true => b | _ => a end
  end.

Definition Math_min (a b : number) : number :=
  match SFcompare a b with
  | None => S754_nan
  | Some Lt => a
  | Some Gt => b
  | Some Eq => match a with S754_zero false => b | _ => a end
  end.

(** The integer part of a finite number, rounded towards zero; [0] for
    zeros, infinities and NaN (the first step of [ToUint8]). *)
Definition truncate (x : number) : Z :=
  match x with
  | S754_finite s m e =>
      cond_Zopp s (if (0 <=? e)%Z then Z.pos m * 2 ^ e else Z.pos m / 2 ^ (- e))%Z
  | _ => 0%Z
  end.

(** [ToUint8]: the conversion applied by a store into a [Uint8Array]. *)
Definition ToUint8 (x : number) : Z := (truncate x mod 256)%Z.

(** [Math.floor] of a finite number, as an integer. *)
Definition Math_floor (x : number) : option Z :=
  match x with
  | S754_zero _ => Some 0%Z
  | S754_finite s m e =>
      Some (if (0 <=? e)%Z then cond_Zopp s (Z.pos m) * 2 ^ e
            else cond_Zopp s (Z.pos m) / 2 ^ (- e))%Z
  | _ => None
  end.

(** The value of a finite number lies in [[-1, 1]]: [|m * 2^e| <= 1],
    written without negative powers. *)
Definition within_unit (x : number) : bool :=
  match x with
  | S754_zero _ => true
  | S754_finite _ m e => (Z.pos m * 2 ^ Z.max 0 e <=? 2 ^ Z.max 0 (- e))%Z
  | _ => false
  end.

End JS.

(** ** Typed arrays *)

Module Float32Array.

Definition t : Type := list JS.number.

(** [new Float32Array(n)]: [n] elements, all [+0]. *)
Definition create (n : nat) : t := repeat (S754_zero false) n.

(** [new Float32Array(typedArray)]: a fresh array with the same elements. *)
Definition copy (a : t) : t := a.

(** [a[i]] for an index inside the array. *)
Definition get (a : t) (i : nat) : option JS.number :=
  option_map JS.promote (nth_error a i).

(** [a.map(f)]: every element is read, passed to [f], and the result is
    stored into a new [Float32Array] of the same length. *)
Definition map (f : JS.number -> JS.number) (a : t) : t :=
  List.map (fun value => JS.fround (f (JS.promote value))) a.

(** [a.reduce(f, init)]. *)
Definition reduce (A : Type) (f : A -> JS.number -> A) (init : A) (a : t) : A :=
  fold_left (fun acc value => f acc (JS.promote value)) a init.

(** [target.set(source, offset)]: copies [source] into [target] starting at
    [offset]; a [RangeError] ([None]) when the source does not fit. *)
Definition set (target source : t) (offset : nat) : option t :=
  if (offset + length source <=? length target)%nat
  then Some (firstn offset target ++ source
               ++ skipn (offset + length source) target)
  else None.

End Float32Array.

Module Uint8Array.

Definition t : Type := list Z.

(** [new Uint8Array(n)]: [n] zero bytes. *)
Definition create (n : nat) : t := repeat 0%Z n.

(** [a[i] = x]: stores [ToUint8 x]; a store outside the array is ignored. *)
Fixpoint store (a : t) (i : nat) (x : JS.number) : t :=
  match a, i with
  | [], _ => []
  | _ :: rest, O => JS.ToUint8 x :: rest
  | b :: rest, S j => b :: store rest j x
  end.

End Uint8Array.

(** ** The [AudioVisualizer] component *)

Module AudioVisualizer.

(** [context.createAnalyser()] with [fftSize] as configured by the code. *)
Record AnalyserNode : Type := { fftSize : nat }.

Definition frequencyBinCount (a : AnalyserNode) : nat := fftSize a / 2.

(** Browser objects are identified by a handle. *)
Record AudioContext : Type := { context_id : nat }.
Record MediaStream : Type := { stream_id : nat }.

(** The [useState] cells of the component, in declaration order. *)
Record State : Type := {
  isRecording : bool;
  audioData : option Float32Array.t;
  audioContext : option AudioContext;
  analyser : option AnalyserNode;
  visualizationType : string;
  timeScale : JS.number;
  gain : JS.number;
  showSettings : bool;
  recordedData : list Float32Array.t;
  isPlaying : bool;
  playbackIndex : nat
}.

(** [useState] initial values. *)
Definition initial : State := {|
  isRecording := false;
  audioData := None;
  audioContext := None;
  analyser := None;
  visualizationType := "waveform";
  timeScale := JS.of_Z 1;
  gain := JS.of_Z 1;
  showSettings := false;
  recordedData := [];
  isPlaying := false;
  playbackIndex := 0
|}.

(** The anchor element built by [handleSaveRecording]. *)
Record Anchor : Type := { href : string; download : string }.

(** What a handler does to the world outside the component state. *)
Inductive Effect : Type :=
| console_error (message : string) (err : string)
| toast (title description : string)
| requestAnimationFrame (callback : string)
| getUserMedia (audio video : bool)
| connect (stream : MediaStream) (node : AnalyserNode)
| new_Blob (parts : Float32Array.t) (type : string)
| createObjectURL (blob : Float32Array.t)
| appendChild (link : Anchor)
| click (link : Anchor)
| removeChild (link : Anchor).

(** [!x] for a nullable object. *)
Definition isNull (A : Type) (x : option A) : bool :=
  match x with
  | Some _ => false
  | None => true
  end.

(** A statement either completes or throws. *)
Inductive completion (A : Type) : Type :=
| Normal (a : A)
| Thrown (exn : string).

Arguments Normal {A} a.
Arguments Thrown {A} exn.

(** Handlers run against the pending component state and log their
    effects in program order. *)
Definition M (A : Type) : Type := State -> completion A * State * list Effect.

Definition ret (A : Type) (a : A) : M A := fun s => (Normal a, s, []).

Definition bind (A B : Type) (m : M A) (f : A -> M B) : M B :=
  fun s =>
    match m s with
    | (Normal a, s1, l1) =>
        match f a s1 with
        | (r, s2, l2) => (r, s2, l1 ++ l2)
        end
    | (Thrown exn, s1, l1) => (Thrown exn, s1, l1)
    end.

Definition throw (A : Type) (exn : string) : M A := fun s => (Thrown exn, s, []).

Arguments throw {A} exn.

Definition emit (e : Effect) : M unit := fun s => (Normal tt, s, [e]).

(** [promise.catch(handler)] around a callback. *)
Definition catch (m : M unit) (handler : string -> M unit) : M unit :=
  fun s =>
    match m s with
    | (Thrown exn, s1, l1) =>
        match handler exn s1 with
        | (r, s2, l2) => (r, s2, l1 ++ l2)
        end
    | done => done
    end.

Declare Scope handler_scope.
Delimit Scope handler_scope with handler.
Notation "x <- m ;; k" := (bind m (fun x => k))
  (at level 61, m at next level, right associativity) : handler_scope.
Notation "m ;; k" := (bind m (fun _ => k))
  (at level 61, right associativity) : handler_scope.
Local Open Scope handler_scope.

(** The state setters returned by [useState]. *)
Definition setIsRecording (b : bool) : M unit := fun s =>
  (Normal tt,
   {| isRecording := b; audioData := audioData s;
      audioContext := audioContext s; analyser := analyser s;
      visualizationType := visualizationType s; timeScale := timeScale s;
      gain := gain s; showSettings := showSettings s;
      recordedData := recordedData s; isPlaying := isPlaying s;
      playbackIndex := playbackIndex s |}, []).

Definition setAudioData (d : option Float32Array.t) : M unit := fun s =>
  (Normal tt,
   {| isRecording := isRecording s; audioData := d;
      audioContext := audioContext s; analyser := analyser s;
      visualizationType := visualizationType s; timeScale := timeScale s;
      gain := gain s; showSettings := showSettings s;
      recordedData := recordedData s; isPlaying := isPlaying s;
      playbackIndex := playbackIndex s |}, []).

Definition setAudioContext (c : option AudioContext) : M unit := fun s =>
  (Normal tt,
   {| isRecording := isRecording s; audioData := audioData s;
      audioContext := c; analyser := analyser s;
      visualizationType := visualizationType s; timeScale := timeScale s;
      gain := gain s; showSettings := showSettings s;
      recordedData := recordedData s; isPlaying := isPlaying s;
      playbackIndex := playbackIndex s |}, []).

Definition setAnalyser (a : option AnalyserNode) : M unit := fun s =>
  (Normal tt,
   {| isRecording := isRecording s; audioData := audioData s;
      audioContext := audioContext s; analyser := a;
      visualizationType := visualizationType s; timeScale := timeScale s;
      gain := gain s; showSettings := showSettings s;
      recordedData := recordedData s; isPlaying := isPlaying s;
      playbackIndex := playbackIndex s |}, []).

Definition setVisualizationType (v : string) : M unit := fun s =>
  (Normal tt,
   {| isRecording := isRecording s; audioData := audioData s;
      audioContext := audioContext s; analyser := analyser s;
      visualizationType := v; timeScale := timeScale s;
      gain := gain s; showSettings := showSettings s;
      recordedData := recordedData s; isPlaying := isPlaying s;
      playbackIndex := playbackIndex s |}, []).

(** [setRecordedData(prev => f(prev))]; [setRecordedData(v)] is the
    constant updater. *)
Definition setRecordedData_with
  (f : list Float32Array.t -> list Float32Array.t) : M unit := fun s =>
  (Normal tt,
   {| isRecording := isRecording s; audioData := audioData s;
      audioContext := audioContext s; analyser := analyser s;
      visualizationType := visualizationType s; timeScale := timeScale s;
      gain := gain s; showSettings := showSettings s;
      recordedData := f (recordedData s); isPlaying := isPlaying s;
      playbackIndex := playbackIndex s |}, []).

Definition setRecordedData (v : list Float32Array.t) : M unit :=
  setRecordedData_with (fun _ => v).

(** The gain slider: [onValueChange={(value) => setGain(value[0])}]. *)
Definition setGain (g : JS.number) : M unit := fun s =>
  (Normal tt,
   {| isRecording := isRecording s; audioData := audioData s;
      audioContext := audioContext s; analyser := analyser s;
      visualizationType := visualizationType s; timeScale := timeScale s;
      gain := g; showSettings := showSettings s;
      recordedData := recordedData s; isPlaying := isPlaying s;
      playbackIndex := playbackIndex s |}, []).

(** *** Audio acquisition (first [useEffect])

    [cl] is the render whose closure the effect captured, [context] the
    [AudioContext] the effect constructs. *)
Definition acquisitionEffect (cl : State) (context : AudioContext) : M unit :=
  if isRecording cl && isNull (audioContext cl) then
    setAudioContext (Some context) ;;
    emit (getUserMedia true false)
  else ret tt.

(** What can go wrong inside the [.then] callback: one of its three
    browser calls throws. *)
Inductive SetupFailure : Type :=
| createMediaStreamSource_throws (exn : string)
| createAnalyser_throws (exn : string)
| connect_throws (exn : string).

(** The value the failing call throws. *)
Definition exceptionOf (failure : SetupFailure) : string :=
  match failure with
  | createMediaStreamSource_throws exn => exn
  | createAnalyser_throws exn => exn
  | connect_throws exn => exn
  end.

(** The [.then] callback.  [failure] tells which of the browser calls
    throws, if any; a call that throws ends the callback there, before the
    analyser is connected or stored. *)
Definition onStream (stream : MediaStream) (failure : option SetupFailure)
  : M unit :=
  match failure with
  | Some (createMediaStreamSource_throws exn) => throw exn
  | Some (createAnalyser_throws exn) => throw exn
  | Some (connect_throws exn) => throw exn
  | None =>
      let analyserNode := {| fftSize := 2048 |} in
      emit (connect stream analyserNode) ;;
      setAnalyser (Some analyserNode)
  end.

(** The [.catch] callback. *)
Definition onError (err : string) : M unit :=
  emit (console_error "Error accessing audio device:" err) ;;
  setIsRecording false.

(** How the [getUserMedia] promise settles: with a stream, and then
    [failure] is what the browser calls of the [.then] callback do with
    it, or with an error. *)
Inductive Settled : Type :=
| fulfilled (stream : MediaStream) (failure : option SetupFailure)
| rejected (err : string).

(** [getUserMedia(...).then(onStream).catch(onError)]: the handler
    receives a rejection of the promise and whatever the [.then] callback
    throws. *)
Definition getUserMedia_settled (r : Settled) : M unit :=
  match r with
  | fulfilled stream failure => catch (onStream stream failure) onError
  | rejected err => onError err
  end.

(** *** Per-frame sampling (second [useEffect])

    [updateData] closes over [isRecording], [analyser] and [gain] of the
    render [cl] that started the loop; [dataArray] is the buffer as filled
    by [analyser.getFloatTimeDomainData]. *)
Definition updateData (cl : State) (dataArray : Float32Array.t) : M unit :=
  if negb (isRecording cl) || isNull (analyser cl) then ret tt
  else
    let amplifiedData := Float32Array.map (fun value => JS.mul value (gain cl)) dataArray in
    setAudioData (Some (Float32Array.copy amplifiedData)) ;;
    setRecordedData_with (fun prev => prev ++ [Float32Array.copy amplifiedData]) ;;
    emit (requestAnimationFrame "updateData").

(** The buffer a call of [updateData] publishes and records, if any. *)
Definition captured (call : State * Float32Array.t) : list Float32Array.t :=
  let (cl, dataArray) := call in
  if negb (isRecording cl) || isNull (analyser cl) then []
  else [Float32Array.map (fun value => JS.mul value (gain cl)) dataArray].

(** A run of animation ticks.  Every loop started by the effect keeps the
    closure of its own render, so each call comes with its closure and the
    buffer the analyser filled for it. *)
Fixpoint ticks (calls : list (State * Float32Array.t)) : M unit :=
  match calls with
  | [] => ret tt
  | (cl, dataArray) :: rest => updateData cl dataArray ;; ticks rest
  end.

(** The component state and the effects a handler leaves behind. *)
Definition stateAfter (A : Type) (m : M A) (s : State) : State := snd (fst (m s)).
Definition effectsOf (A : Type) (m : M A) (s : State) : list Effect := snd (m s).

(** *** Recording handlers *)

Definition handleStartRecording : M unit :=
  setIsRecording true ;;
  setRecordedData [] ;;
  emit (toast "Recording Started" "Capturing audio input from your device").

(** [cl] is the render the click handler belongs to. *)
Definition handleStopRecording (cl : State) : M unit :=
  setIsRecording false ;;
  emit (toast "Recording Stopped"
          ("Captured " ++ NilEmpty.string_of_uint (Nat.to_uint (length (recordedData cl)))
             ++ " data points")%string).

(** The [forEach] loop of [handleSaveRecording]: the merged array and the
    running [offset]. *)
Fixpoint copyInto (mergedArray : Float32Array.t) (offset : nat)
  (arrays : list Float32Array.t) : option Float32Array.t :=
  match arrays with
  | [] => Some mergedArray
  | array :: rest =>
      match Float32Array.set mergedArray array offset with
      | Some merged' => copyInto merged' (offset + length array) rest
      | None => None
      end
  end.

Definition mergeRecorded (recorded : list Float32Array.t) : option Float32Array.t :=
  let mergedArray :=
    Float32Array.create (fold_left (fun acc curr => acc + length curr) recorded 0) in
  copyInto mergedArray 0 recorded.

(** [now.toISOString().replace(/[:.]/g, '-').slice(0, 19)]. *)
Fixpoint replaceColonDot (s : string) : string :=
  match s with
  | EmptyString => EmptyString
  | String c rest =>
      String (if (Ascii.eqb c ":" || Ascii.eqb c ".")%char then "-"%char else c)
             (replaceColonDot rest)
  end.

Definition timestamp (iso : string) : string :=
  substring 0 19 (replaceColonDot iso).

(** [cl] is the render the click handler belongs to, [url] the object URL
    handed out by the browser and [iso] the value of [now.toISOString()]. *)
Definition handleSaveRecording (cl : State) (url iso : string) : M unit :=
  if (length (recordedData cl) =? 0)%nat then ret tt
  else
    match mergeRecorded (recordedData cl) with
    | None => throw "RangeError"
    | Some mergedArray =>
        let link := {| href := url;
                       download := ("radio-astronomy-recording-" ++ timestamp iso ++ ".dat")%string |} in
        emit (new_Blob mergedArray "application/octet-stream") ;;
        emit (createObjectURL mergedArray) ;;
        emit (appendChild link) ;;
        emit (click link) ;;
        emit (removeChild link) ;;
        emit (toast "Recording Saved" "Your data has been saved to a file")
    end.

End AudioVisualizer.

(** ** The [SpectrographVisualizer] component *)

Module SpectrographVisualizer.

(** [historyLengthRef.current]; the ref is never assigned after creation. *)
Definition historyLengthRef_current : nat := 300.

(** [Math.floor(i / 256 * audioData.length)].  [i / 256] is a multiple of
    [2^-8] below one, so for every array length the product is computed
    without rounding and its floor is the integer quotient
    (see [sampleIndex_agrees_with_js]). *)
Definition sampleIndex (i len : nat) : nat := i * len / 256.

(** The same expression evaluated in binary64 arithmetic. *)
Definition sampleIndex_js (i len : nat) : option Z :=
  JS.Math_floor (JS.mul (JS.div (JS.of_nat i) (JS.of_Z 256)) (JS.of_nat len)).

(** [Math.min(255, Math.max(0, Math.abs(sample) * 1000))]. *)
Definition intensityOf (sample : JS.number) : JS.number :=
  JS.Math_min (JS.of_Z 255)
    (JS.Math_max (JS.of_Z 0) (JS.mul (JS.Math_abs sample) (JS.of_Z 1000))).

(** The body of the [for] loop at index [i]. *)
Definition fillBin (audioData : Float32Array.t) (spectrumBuffer : Uint8Array.t)
  (i : nat) : Uint8Array.t :=
  let sampleIndex := sampleIndex i (length audioData) in
  if (sampleIndex <? length audioData)%nat then
    match Float32Array.get audioData sampleIndex with
    | Some sample =>
        let intensity := intensityOf sample in
        Uint8Array.store spectrumBuffer i intensity
    | None => spectrumBuffer
    end
  else spectrumBuffer.

(** [spectrumBuffer] after the loop [for (let i = 0; i < 256; i++)]. *)
Definition spectrumBufferOf (audioData : Float32Array.t) : Uint8Array.t :=
  fold_left (fillBin audioData) (seq 0 256) (Uint8Array.create 256).

(** The updater passed to [setSpectrumHistory]. *)
Definition pushHistory (spectrumBuffer : Uint8Array.t) (prev : list Uint8Array.t)
  : list Uint8Array.t :=
  let newHistory := spectrumBuffer :: prev in
  if (historyLengthRef_current <? length newHistory)%nat
  then firstn historyLengthRef_current newHistory
  else newHistory.

(** [processSpectrum], as a function of the [spectrumHistory] it updates. *)
Definition processSpectrum (audioData : Float32Array.t)
  (spectrumHistory : list Uint8Array.t) : list Uint8Array.t :=
  pushHistory (spectrumBufferOf audioData) spectrumHistory.

(** The [useEffect] keyed on [[audioData, isActive]]. *)
Definition spectrumEffect (audioData : option Float32Array.t) (isActive : bool)
  (spectrumHistory : list Uint8Array.t) : list Uint8Array.t :=
  match audioData with
  | Some data => if isActive then processSpectrum data spectrumHistory
                 else spectrumHistory
  | None => spectrumHistory
  end.

(** A well-formed entry: 256 bytes. *)
Definition wellFormed (entry : Uint8Array.t) : Prop :=
  length entry = 256 /\ Forall (fun b => (0 <= b <= 255)%Z) entry.

(** Histories the component can hold: the initial [[]] and whatever the
    effect makes of a history it can hold. *)
Inductive reachable : list Uint8Array.t -> Prop :=
| reachable_initial : reachable []
| reachable_effect : forall audioData isActive spectrumHistory,
    reachable spectrumHistory ->
    reachable (spectrumEffect audioData isActive spectrumHistory).

End SpectrographVisualizer.

(** ** The [TimeSeriesVisualizer] component *)

Module TimeSeriesVisualizer.

(** [audioData.reduce((sum, value) => sum + Math.abs(value), 0) / audioData.length]. *)
Definition newDataPoint (audioData : Float32Array.t) : JS.number :=
  JS.div
    (Float32Array.reduce (fun sum value => JS.add sum (JS.Math_abs value))
       (JS.of_Z 0) audioData)
    (JS.of_nat (length audioData)).

(** The updater passed to [setTimeSeriesData]. *)
Definition pushPoint (newDataPoint : JS.number) (prev : list JS.number)
  : list JS.number :=
  let newData := prev ++ [newDataPoint] in
  if (500 <? length newData)%nat
  then skipn (length newData - 500) newData
  else newData.

(** The accumulating [useEffect] keyed on [[audioData, isActive]]. *)
Definition accumulateEffect (audioData : option Float32Array.t) (isActive : bool)
  (timeSeriesData : list JS.number) : list JS.number :=
  match audioData with
  | Some data => if isActive then pushPoint (newDataPoint data) timeSeriesData
                 else timeSeriesData
  | None => timeSeriesData
  end.

End TimeSeriesVisualizer.

(** ** The page: the parent component and the state of its children *)

Module Dashboard.

Record State : Type := {
  visualizer : AudioVisualizer.State;
  spectrumHistory : list Uint8Array.t;
  timeSeriesData : list JS.number
}.

(** The children's accumulation effects, run with the props of the current
    render ([isActive={visualizationType === '...'}]). *)
Definition childEffects (d : State) : State :=
  let s := visualizer d in
  {| visualizer := s;
     spectrumHistory :=
       SpectrographVisualizer.spectrumEffect (AudioVisualizer.audioData s)
         (String.eqb (AudioVisualizer.visualizationType s) "spectrograph")
         (spectrumHistory d);
     timeSeriesData :=
       TimeSeriesVisualizer.accumulateEffect (AudioVisualizer.audioData s)
         (String.eqb (AudioVisualizer.visualizationType s) "timeSeries")
         (timeSeriesData d) |}.

(** What a change of the selected tab does to the state a child keeps in
    [useState].  The tabs component is not among the sources;
    [forceMount] tells whether it keeps the content of unselected tabs
    mounted.

    - Mounted throughout: the accumulation effect depends on
      [[audioData, isActive]]; the change of tab leaves [audioData] alone,
      so the effect runs again exactly when [isActive] has changed.
    - Mounted only while selected: the child that is left is unmounted and
      its state discarded; the child that is entered mounts with the
      initial state [[]] and its effect runs for the first time. *)
Definition afterSwitch (H : Type) (forceMount wasActive isActive : bool)
  (effect : bool -> list H -> list H) (history : list H) : list H :=
  if forceMount then
    if Bool.eqb wasActive isActive then history else effect isActive history
  else
    match wasActive, isActive with
    | true, true => history
    | false, true => effect true []
    | true, false => []
    | false, false => history
    end.

(** [<Tabs onValueChange={setVisualizationType}>] and the render that
    follows: the parent stores the value, the children receive
    [isActive={visualizationType === '...'}] and the unchanged
    [audioData]. *)
Definition switchTab (forceMount : bool) (value : string) (d : State) : State :=
  let prev := visualizer d in
  let next :=
    AudioVisualizer.stateAfter (AudioVisualizer.setVisualizationType value) prev in
  {| visualizer := next;
     spectrumHistory :=
       afterSwitch forceMount
         (String.eqb (AudioVisualizer.visualizationType prev) "spectrograph")
         (String.eqb (AudioVisualizer.visualizationType next) "spectrograph")
         (SpectrographVisualizer.spectrumEffect (AudioVisualizer.audioData next))
         (spectrumHistory d);
     timeSeriesData :=
       afterSwitch forceMount
         (String.eqb (AudioVisualizer.visualizationType prev) "timeSeries")
         (String.eqb (AudioVisualizer.visualizationType next) "timeSeries")
         (TimeSeriesVisualizer.accumulateEffect (AudioVisualizer.audioData next))
         (timeSeriesData d) |}.

End Dashboard.

(** ** Concrete inputs used to exercise the model *)

Module Sample.

Import AudioVisualizer.

(** The binary32 samples 0.5, -1 and the binary32 nearest to -0.1. *)
Definition half : JS.number := JS.fround (JS.dyadic 1 (-1)).
Definition minus_one : JS.number := JS.fround (JS.of_Z (-1)).
Definition minus_tenth : JS.number := JS.fround (JS.div (JS.of_Z (-1)) (JS.of_Z 10)).

(** A render in which recording is running with the given gain. *)
Definition recordingWith (g : JS.number) : State := {|
  isRecording := true;
  audioData := None;
  audioContext := Some {| context_id := 0 |};
  analyser := Some {| fftSize := 2048 |};
  visualizationType := "waveform";
  timeScale := JS.of_Z 1;
  gain := g;
  showSettings := false;
  recordedData := [];
  isPlaying := false;
  playbackIndex := 0
|}.

(** A render that holds two recorded buffers. *)
Definition twoBuffers : State := {|
  isRecording := false;
  audioData := Some [half; minus_one];
  audioContext := Some {| context_id := 0 |};
  analyser := Some {| fftSize := 2048 |};
  visualizationType := "spectrograph";
  timeScale := JS.of_Z 1;
  gain := JS.of_Z 1;
  showSettings := false;
  recordedData := [[half]; [half; minus_one]];
  isPlaying := false;
  playbackIndex := 0
|}.

End Sample.

(** ** More of [AudioVisualizer]: the sampling effect and playback *)

Module Recorder.

Import AudioVisualizer.

Local Open Scope handler_scope.

(** The body of the second [useEffect]: nothing without an analyser or
    while not recording; otherwise the loop is entered by a first call of
    [updateData].  [dataArray] is the buffer as filled for that call. *)
Definition samplingEffect (cl : State) (dataArray : Float32Array.t) : M unit :=
  if isNull (analyser cl) || negb (isRecording cl) then ret tt
  else updateData cl dataArray.

Definition setIsPlaying (b : bool) : M unit := fun s =>
  (Normal tt,
   {| isRecording := isRecording s; audioData := audioData s;
      audioContext := audioContext s; analyser := analyser s;
      visualizationType := visualizationType s; timeScale := timeScale s;
      gain := gain s; showSettings := showSettings s;
      recordedData := recordedData s; isPlaying := b;
      playbackIndex := playbackIndex s |}, []).

(** [setPlaybackIndex(prev => f(prev))]; [setPlaybackIndex(v)] is the
    constant updater. *)
Definition setPlaybackIndex_with (f : nat -> nat) : M unit := fun s =>
  (Normal tt,
   {| isRecording := isRecording s; audioData := audioData s;
      audioContext := audioContext s; analyser := analyser s;
      visualizationType := visualizationType s; timeScale := timeScale s;
      gain := gain s; showSettings := showSettings s;
      recordedData := recordedData s; isPlaying := isPlaying s;
      playbackIndex := f (playbackIndex s) |}, []).

Definition setPlaybackIndex (v : nat) : M unit :=
  setPlaybackIndex_with (fun _ => v).

(** What the playback handlers do to the outside: the effects of the
    component, and the cancellation of a scheduled frame. *)
Inductive Action : Type :=
| component (e : Effect)
| cancelAnimationFrame (handle : nat).

(** [playbackRef.current]: [None] is [null], otherwise the handle returned
    by [requestAnimationFrame]. *)
Definition Ref : Type := option nat.

(** [if (playbackRef.current)]: a handle counts unless it is null or 0. *)
Definition truthy (r : Ref) : bool :=
  match r with
  | Some (S _) => true
  | _ => false
  end.

(** Playback handlers run against the pending component state and the
    ref. *)
Definition P (A : Type) : Type := State * Ref -> A * (State * Ref) * list Action.

Definition pret (A : Type) (a : A) : P A := fun w => (a, w, []).

Definition pbind (A B : Type) (m : P A) (f : A -> P B) : P B :=
  fun w =>
    match m w with
    | (a, w1, l1) =>
        match f a w1 with
        | (b, w2, l2) => (b, w2, l1 ++ l2)
        end
    end.

(** A state setter or an effect of the component, inside a playback
    handler. *)
Definition lift (m : M unit) : P unit :=
  fun w =>
    match m (fst w) with
    | (_, s, l) => (tt, (s, snd w), List.map component l)
    end.

Definition act (a : Action) : P unit := fun w => (tt, w, [a]).

Definition getRef : P Ref := fun w => (snd w, w, []).

Definition setRef (r : Ref) : P unit := fun w => (tt, (fst w, r), []).

Declare Scope playback_scope.
Delimit Scope playback_scope with playback.
Notation "x <- m ;; k" := (pbind m (fun x => k))
  (at level 61, m at next level, right associativity) : playback_scope.
Notation "m ;; k" := (pbind m (fun _ => k))
  (at level 61, right associativity) : playback_scope.
Local Open Scope playback_scope.

Definition handleStopPlayback : P unit :=
  (r <- getRef ;;
   if truthy r then
     match r with
     | Some handle => act (cancelAnimationFrame handle) ;; setRef None
     | None => pret tt
     end
   else pret tt) ;;
  lift (setIsPlaying false) ;;
  lift (setPlaybackIndex 0) ;;
  act (component (toast "Playback Stopped" "Playback has been stopped")).

(** The frame callback created by [handlePlayback] in the render [cl];
    [handle] is what [requestAnimationFrame] returns when it reschedules
    itself. *)
Definition playNextFrame (cl : State) (handle : nat) : P unit :=
  if (playbackIndex cl <? length (recordedData cl))%nat then
    lift (setAudioData (nth_error (recordedData cl) (playbackIndex cl))) ;;
    lift (setPlaybackIndex_with (fun prev => prev + 1)) ;;
    act (component (requestAnimationFrame "playNextFrame")) ;;
    setRef (Some handle)
  else handleStopPlayback.

(** [cl] is the render the click handler belongs to, [handle] what
    [requestAnimationFrame] returns. *)
Definition handlePlayback (cl : State) (handle : nat) : P unit :=
  if (length (recordedData cl) =? 0)%nat then pret tt
  else
    lift (setIsPlaying true) ;;
    lift (setPlaybackIndex 0) ;;
    act (component (requestAnimationFrame "playNextFrame")) ;;
    setRef (Some handle) ;;
    act (component (toast "Playback Started" "Playing back recorded data")).

(** The frames of one playback: the callback of the render [cl] is called
    once per animation frame, each time with the handle of the frame it
    schedules next. *)
Fixpoint playFrames (cl : State) (handles : list nat) : P unit :=
  match handles with
  | [] => pret tt
  | handle :: rest => playNextFrame cl handle ;; playFrames cl rest
  end.

(** The cleanup of the last [useEffect], run when the component unmounts. *)
Definition unmountCleanup : P unit :=
  r <- getRef ;;
  if truthy r then
    match r with
    | Some handle => act (cancelAnimationFrame handle)
    | None => pret tt
    end
  else pret tt.

(** The world a playback handler leaves behind, and what it did. *)
Definition worldAfter (A : Type) (m : P A) (w : State * Ref) : State * Ref :=
  snd (fst (m w)).
Definition actionsOf (A : Type) (m : P A) (w : State * Ref) : list Action :=
  snd (m w).

End Recorder.

(** ** Drawing on a canvas *)

Module Canvas.

(** [x - y] on numbers. *)
Definition sub (x y : JS.number) : JS.number := SFsub 53 1024 x y.

(** The decimal literal [num / den] (0.4 is [ratio 2 5]): division is
    correctly rounded, so this is the binary64 number the literal denotes. *)
Definition ratio (num den : Z) : JS.number := JS.div (JS.of_Z num) (JS.of_Z den).

(** [x || fallback] on numbers: zeros and NaN are falsy. *)
Definition orElse (x fallback : JS.number) : JS.number :=
  match x with
  | S754_zero _ | S754_nan => fallback
  | _ => x
  end.

(** [`${n}`] for an integer. *)
Definition decimal (n : Z) : string := NilZero.string_of_int (Z.to_int n).

(** The calls made on a 2D context and the assignments to its properties
    and to the canvas size, in program order. *)
Inductive Op : Type :=
| set_width (w : JS.number)
| set_height (h : JS.number)
| scale (x y : JS.number)
| clearRect (x y w h : JS.number)
| set_fillStyle (style : string)
| set_strokeStyle (style : string)
| set_font (font : string)
| set_textAlign (align : string)
| set_lineWidth (w : JS.number)
| fillText (text : string) (x y : JS.number)
| fillRect (x y w h : JS.number)
| beginPath
| closePath
| moveTo (x y : JS.number)
| lineTo (x y : JS.number)
| arc (x y radius startAngle endAngle : JS.number)
| stroke
| fill
| createLinearGradient (x0 y0 x1 y1 : JS.number)
| addColorStop (offset : JS.number) (color : string)
| set_strokeStyle_gradient
| set_fillStyle_hsla (hue : JS.number) (saturation lightness : string)
    (alpha : string).

Definition isFillRect (op : Op) : bool :=
  match op with fillRect _ _ _ _ => true | _ => false end.

Definition isFillText (op : Op) : bool :=
  match op with fillText _ _ _ => true | _ => false end.

Definition isArc (op : Op) : bool :=
  match op with arc _ _ _ _ _ => true | _ => false end.

Definition isPathPoint (op : Op) : bool :=
  match op with moveTo _ _ | lineTo _ _ => true | _ => false end.

Definition count (p : Op -> bool) (ops : list Op) : nat :=
  length (filter p ops).

(** The element the effect draws on: [canvasRef.current] (null before
    mount), whether [getContext('2d')] yields a context, the device pixel
    ratio and the size reported by [getBoundingClientRect]. *)
Record Element : Type := {
  mounted : bool;
  hasContext : bool;
  devicePixelRatio : JS.number;
  rect_width : JS.number;
  rect_height : JS.number
}.

End Canvas.

(** ** Drawing the spectrograph *)

Module SpectrographDrawing.

Import Canvas.

(** The colour of an intensity: black, blue, purple, red, yellow, white. *)
Definition colorOf (intensity : Z) : Z * Z * Z :=
  if (intensity <? 40)%Z then (0, 0, intensity * 6)%Z
  else if (intensity <? 80)%Z then ((intensity - 40) * 6, 0, 255)%Z
  else if (intensity <? 120)%Z then (255, 0, 255 - (intensity - 80) * 6)%Z
  else if (intensity <? 160)%Z then (255, (intensity - 120) * 6, 0)%Z
  else if (intensity <? 200)%Z then (255, 255, (intensity - 160) * 6)%Z
  else (255, 255, 255)%Z.

(** [`rgb(${r}, ${g}, ${b})`]. *)
Definition rgb (c : Z * Z * Z) : string :=
  let '(r, g, b) := c in
  ("rgb(" ++ decimal r ++ ", " ++ decimal g ++ ", " ++ decimal b ++ ")")%string.

(** The inner [for] loop from [freqIndex] on: [bins] are the bytes
    [spectrum[freqIndex..]], [len] is [spectrum.length]. *)
Fixpoint drawBins (bins : list Z) (freqIndex : nat) (len : nat)
  (posX y sliceWidth height : JS.number) : list Op :=
  match bins with
  | [] => []
  | intensity :: rest =>
      let normalizedFreq :=
        sub (JS.of_Z 1) (JS.div (JS.of_nat freqIndex) (JS.of_nat len)) in
      let posY := JS.add y (JS.mul normalizedFreq height) in
      [set_fillStyle (rgb (colorOf intensity));
       fillRect posX posY (JS.add sliceWidth (JS.dyadic 1 (-1)))
         (JS.add (JS.div height (JS.of_nat len)) (JS.dyadic 1 (-1)))]
      ++ drawBins rest (S freqIndex) len posX y sliceWidth height
  end.

(** [history.forEach((spectrum, timeIndex) => ...)] from [timeIndex] on. *)
Fixpoint drawSlices (slices : list Uint8Array.t) (timeIndex : nat)
  (x y sliceWidth height : JS.number) : list Op :=
  match slices with
  | [] => []
  | spectrum :: rest =>
      let posX := JS.add x (JS.mul (JS.of_nat timeIndex) sliceWidth) in
      drawBins spectrum 0 (length spectrum) posX y sliceWidth height
      ++ drawSlices rest (S timeIndex) x y sliceWidth height
  end.

Definition drawSpectrograph (history : list Uint8Array.t)
  (x y width height : JS.number) : list Op :=
  if (length history =? 0)%nat then
    [set_fillStyle "rgba(255, 255, 255, 0.5)";
     set_textAlign "center";
     fillText "Recording data to build spectrograph..."
       (JS.add x (JS.div width (JS.of_Z 2)))
       (JS.add y (JS.div height (JS.of_Z 2)))]
  else
    let sliceWidth := JS.div width (JS.of_nat (length history)) in
    drawSlices history 0 x y sliceWidth height.

(** One label of the frequency scale with its tick mark. *)
Definition drawLabel (y width height : JS.number) (label : JS.number * string)
  : list Op :=
  let (pos, frequency) := label in
  let labelY := JS.add y (JS.mul pos height) in
  [fillText frequency (sub width (JS.of_Z 10)) labelY;
   set_strokeStyle "rgba(255, 255, 255, 0.2)";
   beginPath;
   moveTo (sub width (JS.of_Z 30)) labelY;
   lineTo (sub width (JS.of_Z 25)) labelY;
   stroke].

Definition drawFrequencyScale (x y width height : JS.number) : list Op :=
  [set_fillStyle "rgba(255, 255, 255, 0.5)";
   set_font "10px sans-serif";
   set_textAlign "right"]
  ++ flat_map (drawLabel y width height)
       [(ratio 1 10, "24 MHz"); (ratio 3 10, "18 MHz"); (ratio 1 2, "12 MHz");
        (ratio 7 10, "6 MHz"); (ratio 9 10, "0 MHz")]%string.

(** The drawing [useEffect], keyed on [[spectrumHistory, isActive]]. *)
Definition drawEffect (canvas : Element) (isActive : bool)
  (spectrumHistory : list Uint8Array.t) : list Op :=
  if negb (mounted canvas) || negb isActive then []
  else if negb (hasContext canvas) then []
  else
    let dpr := orElse (devicePixelRatio canvas) (JS.of_Z 1) in
    let width := rect_width canvas in
    let height := rect_height canvas in
    let shortTermHeight := JS.mul height (ratio 2 5) in
    let shortTermHistory := firstn 60 spectrumHistory in
    let longTermHistory := spectrumHistory in
    let longTermHeight := JS.mul height (ratio 11 20) in
    let longTermY := JS.add shortTermHeight (JS.mul height (ratio 1 20)) in
    let divider := JS.add shortTermHeight (JS.mul height (ratio 1 40)) in
    [set_width (JS.mul width dpr);
     set_height (JS.mul height dpr);
     scale dpr dpr;
     clearRect (JS.of_Z 0) (JS.of_Z 0) width height]
    ++ drawSpectrograph shortTermHistory (JS.of_Z 0) (JS.of_Z 0) width shortTermHeight
    ++ drawSpectrograph longTermHistory (JS.of_Z 0) longTermY width longTermHeight
    ++ [set_fillStyle "rgba(255, 255, 255, 0.7)";
        set_font "12px sans-serif";
        fillText "Last Minute" (JS.of_Z 10) (JS.of_Z 15);
        fillText "Last 5 Minutes" (JS.of_Z 10) (JS.add longTermY (JS.of_Z 15));
        set_strokeStyle "rgba(255, 255, 255, 0.2)";
        beginPath;
        moveTo (JS.of_Z 0) divider;
        lineTo width divider;
        stroke]
    ++ drawFrequencyScale (JS.of_Z 0) (JS.of_Z 0) width shortTermHeight
    ++ drawFrequencyScale (JS.of_Z 0) longTermY width longTermHeight.

End SpectrographDrawing.

(** ** Drawing the time series *)

Module TimeSeriesDrawing.

Import Canvas.

(** [Math.PI]. *)
Definition Math_PI : JS.number := S754_finite false 7074237752028440 (-51).

(** [Math.max(...timeSeriesData, 0.01)]: the arguments are scanned from
    left to right starting from minus infinity. *)
Definition maxValueOf (timeSeriesData : list JS.number) : JS.number :=
  fold_left JS.Math_max (timeSeriesData ++ [ratio 1 100]) (S754_infinity true).

(** [Math.max(1, Math.floor(timeSeriesData.length / 50))]; the quotient of
    two small integers is floored, which is the integer quotient
    (see [pointInterval_agrees_with_js]). *)
Definition pointInterval (len : nat) : nat := Nat.max 1 (len / 50).

(** The same expression evaluated in binary64 arithmetic. *)
Definition pointInterval_js (len : nat) : JS.number :=
  match JS.Math_floor (JS.div (JS.of_nat len) (JS.of_Z 50)) with
  | Some q => JS.Math_max (JS.of_Z 1) (JS.of_Z q)
  | None => S754_nan
  end.

(** The canvas ordinate of a value:
    [rect.height - (value / maxValue) * (rect.height * 0.8)]. *)
Definition ordinate (height maxValue value : JS.number) : JS.number :=
  sub height (JS.mul (JS.div value maxValue) (JS.mul height (ratio 4 5))).

(** The first [forEach]: the line through the points, from index [i] on. *)
Fixpoint drawLine (values : list JS.number) (i : nat)
  (pointSpacing height maxValue : JS.number) : list Op :=
  match values with
  | [] => []
  | value :: rest =>
      let x := JS.mul (JS.of_nat i) pointSpacing in
      let y := ordinate height maxValue value in
      (if (i =? 0)%nat then moveTo x y else lineTo x y)
      :: drawLine rest (S i) pointSpacing height maxValue
  end.

(** The second [forEach]: a dot on every [pointInterval]-th point, from
    index [i] on. *)
Fixpoint drawMarks (values : list JS.number) (i : nat) (pointInterval : nat)
  (pointSpacing height maxValue : JS.number) : list Op :=
  match values with
  | [] => []
  | value :: rest =>
      (if (i mod pointInterval =? 0)%nat then
         let x := JS.mul (JS.of_nat i) pointSpacing in
         let y := ordinate height maxValue value in
         [beginPath;
          arc x y (JS.of_Z 3) (JS.of_Z 0) (JS.mul Math_PI (JS.of_Z 2));
          set_fillStyle "#9b87f5";
          fill]
       else [])
      ++ drawMarks rest (S i) pointInterval pointSpacing height maxValue
  end.

(** The part of the drawing effect that depends on the data: everything
    after the grid, the baseline and the time labels. *)
Definition drawSeries (width height : JS.number)
  (timeSeriesData : list JS.number) : list Op :=
  if (length timeSeriesData <? 2)%nat then
    [set_font "14px sans-serif";
     set_fillStyle "rgba(255, 255, 255, 0.5)";
     set_textAlign "center";
     fillText "Recording and accumulating data..."
       (JS.div width (JS.of_Z 2)) (JS.div height (JS.of_Z 2))]
  else
    let maxValue := maxValueOf timeSeriesData in
    let pointSpacing :=
      JS.div width (JS.of_nat (length timeSeriesData - 1)) in
    [beginPath]
    ++ drawLine timeSeriesData 0 pointSpacing height maxValue
    ++ [createLinearGradient (JS.of_Z 0) (JS.of_Z 0) (JS.of_Z 0) height;
        addColorStop (JS.of_Z 0) "#9b87f5";
        addColorStop (JS.of_Z 1) "#6E59A5";
        set_strokeStyle_gradient;
        set_lineWidth (JS.of_Z 2);
        stroke;
        lineTo width height;
        lineTo (JS.of_Z 0) height;
        closePath;
        set_fillStyle "rgba(110, 89, 165, 0.1)";
        fill]
    ++ drawMarks timeSeriesData 0 (pointInterval (length timeSeriesData))
         pointSpacing height maxValue.

End TimeSeriesDrawing.

(** ** Drawing the spectrum bars *)

Module SpectrumVisualizer.

Import Canvas.

(** The loop [for (let i = 0; i < dataPoints; i += samplingRate)] from [i]
    on, with [samplingRate = 4] and the [break] at [128 * samplingRate].
    [fuel] bounds the number of iterations. *)
Fixpoint barsFrom (fuel : nat) (i : nat) (audioData : Float32Array.t)
  (barWidth height : JS.number) : list Op :=
  match fuel with
  | O => []
  | S fuel' =>
      if (i <? length audioData)%nat then
        if (128 * 4 <=? i)%nat then []
        else
          match Float32Array.get audioData i with
          | Some sample =>
              let value := JS.Math_abs sample in
              let percent := value in
              let barHeight := JS.mul (JS.mul percent height) (JS.dyadic 3 (-1)) in
              let x := JS.mul (JS.div (JS.of_nat i) (JS.of_Z 4)) barWidth in
              let y := sub height barHeight in
              let hue :=
                sub (JS.of_Z 270)
                  (JS.mul (JS.div (JS.of_nat i) (JS.of_nat (length audioData)))
                     (JS.of_Z 30)) in
              [set_fillStyle_hsla hue "70%" "65%" "0.9";
               fillRect x y (sub barWidth (JS.of_Z 1)) barHeight]
              ++ barsFrom fuel' (i + 4) audioData barWidth height
          | None => []
          end
      else []
  end.

(** The bars drawn for a buffer.  The loop adds 4 to [i] on every
    iteration, so [audioData.length] iterations are more than it can make. *)
Definition drawBars (width height : JS.number) (audioData : Float32Array.t)
  : list Op :=
  let dataPoints := length audioData in
  let barWidth := JS.div width (JS.Math_min (JS.of_Z 128) (JS.of_nat dataPoints)) in
  barsFrom dataPoints 0 audioData barWidth height.

End SpectrumVisualizer.

(** ** Signs of numbers *)

Module Sign.

(** A number that is [+0], positive or [+Infinity]. *)
Definition nonNegative (x : JS.number) : bool :=
  match x with
  | S754_zero false | S754_infinity false | S754_finite false _ _ => true
  | _ => false
  end.

End Sign.

(** ** A concrete canvas and history used to exercise the drawing code *)

Module Scene.

(** An 800 by 400 canvas on a display with a pixel ratio of 2. *)
Definition canvas : Canvas.Element := {|
  Canvas.mounted := true;
  Canvas.hasContext := true;
  Canvas.devicePixelRatio := JS.of_Z 2;
  Canvas.rect_width := JS.of_Z 800;
  Canvas.rect_height := JS.of_Z 400
|}.

(** The history after one frame on the spectrograph tab. *)
Definition oneFrame : list Uint8Array.t :=
  SpectrographVisualizer.spectrumEffect (Some [Sample.half; Sample.minus_one])
    true [].

(** The page on the waveform tab, a buffer published, nothing accumulated. *)
Definition onWaveform : Dashboard.State := {|
  Dashboard.visualizer :=
    AudioVisualizer.stateAfter (AudioVisualizer.setVisualizationType "waveform")
      Sample.twoBuffers;
  Dashboard.spectrumHistory := [];
  Dashboard.timeSeriesData := []
|}.

(** The page on the spectrograph tab after one frame. *)
Definition onSpectrograph : Dashboard.State := {|
  Dashboard.visualizer := Sample.twoBuffers;
  Dashboard.spectrumHistory := oneFrame;
  Dashboard.timeSeriesData := []
|}.

(** Two ticks of a loop that was started while recording. *)
Definition twoTicks : list (AudioVisualizer.State * Float32Array.t) :=
  [(Sample.recordingWith (JS.of_Z 1), [Sample.half]);
   (Sample.recordingWith (JS.of_Z 1), [Sample.minus_one])].

End Scene.

(** * Properties *)

(** ** Lists and typed arrays *)

Section TypedArrayFacts.

Lemma sum_of_lengths (A : Type) (arrays : list (list A)) (n : nat) :
  fold_left (fun acc curr => acc + length curr) arrays n
  = n + length (concat arrays).
Proof.
  revert n; induction arrays as [|a rest IH]; intro n; simpl.
  - lia.
  - rewrite IH, length_app. lia.
Qed.

Lemma length_concat_sum (A : Type) (arrays : list (list A)) :
  length (concat arrays) = list_sum (List.map (@length A) arrays).
Proof.
  induction arrays as [|a rest IH]; simpl; [reflexivity|].
  rewrite length_app, IH. reflexivity.
Qed.

Lemma skipn_of_repeat (A : Type) (x : A) (n k : nat) :
  skipn n (repeat x k) = repeat x (k - n).
Proof.
  revert n; induction k as [|k IH]; intro n; destruct n; simpl; auto.
Qed.

(** Writing [source] right after an already written prefix of a
    zero-initialised array. *)
Lemma set_after_prefix (written source : Float32Array.t) (k : nat) :
  length source <= k ->
  Float32Array.set (written ++ Float32Array.create k) source (length written)
  = Some ((written ++ source) ++ Float32Array.create (k - length source)).
Proof.
  intro Hk. unfold Float32Array.set, Float32Array.create.
  rewrite length_app, repeat_length.
  replace (length written + length source <=? length written + k) with true
    by (symmetry; apply Nat.leb_le; lia).
  f_equal.
  rewrite firstn_app, Nat.sub_diag, firstn_all, firstn_O, app_nil_r.
  rewrite skipn_app, skipn_all2 by lia. simpl.
  replace (length written + length source - length written)
    with (length source) by lia.
  rewrite skipn_of_repeat, <- app_assoc. reflexivity.
Qed.

Lemma copyInto_concat (arrays : list Float32Array.t) :
  forall written : Float32Array.t,
    AudioVisualizer.copyInto
      (written ++ Float32Array.create (length (concat arrays)))
      (length written) arrays
    = Some (written ++ concat arrays).
Proof.
  induction arrays as [|a rest IH]; intro written; simpl.
  - reflexivity.
  - rewrite length_app, set_after_prefix by lia.
    replace (length a + length (concat rest) - length a)
      with (length (concat rest)) by lia.
    rewrite <- length_app, IH, <- app_assoc. reflexivity.
Qed.

Lemma mergeRecorded_concat (recorded : list Float32Array.t) :
  AudioVisualizer.mergeRecorded recorded = Some (concat recorded).
Proof.
  unfold AudioVisualizer.mergeRecorded.
  rewrite sum_of_lengths. simpl.
  exact (copyInto_concat recorded []).
Qed.

End TypedArrayFacts.

(** ** Rounding does not leave the unit interval *)

Section UnitInterval.

Local Open Scope Z_scope.

(** A format with at least two bits of precision and [prec <= emax]
    (binary32: 24 and 128, binary64: 53 and 1024). *)
Variables prec emax : Z.
Hypothesis prec_ge_2 : 2 <= prec.
Hypothesis prec_le_emax : prec <= emax.

Lemma within_unit_finite (s : bool) (m : positive) (e : Z) :
  JS.within_unit (S754_finite s m e) = true <-> e <= 0 /\ Z.pos m <= 2 ^ (- e).
Proof.
  unfold JS.within_unit. rewrite Z.leb_le. split.
  - intro H. destruct (Z_le_gt_dec e 0) as [He|He].
    + rewrite Z.max_l, Z.max_r in H by lia. rewrite Z.pow_0_r in H. lia.
    + rewrite Z.max_r, Z.max_l in H by lia. rewrite Z.pow_0_r in H.
      assert (2 ^ 1 <= 2 ^ e) by (apply Z.pow_le_mono_r; lia).
      rewrite Z.pow_1_r in *. nia.
  - intros [He Hm]. rewrite Z.max_l, Z.max_r by lia. rewrite Z.pow_0_r. lia.
Qed.

Lemma digits2_pos_lower (m : positive) :
  2 ^ Z.pos (digits2_pos m) <= 2 * Z.pos m.
Proof.
  induction m as [p IH|p IH|]; simpl digits2_pos.
  - rewrite Pos2Z.inj_succ, Z.pow_succ_r, (Pos2Z.inj_xI p) by lia. lia.
  - rewrite Pos2Z.inj_succ, Z.pow_succ_r, (Pos2Z.inj_xO p) by lia. lia.
  - simpl. lia.
Qed.

(** A magnitude that is at most one has its leading bit at position zero
    or below. *)
Lemma Zdigits2_plus_exponent (m e : Z) :
  0 <= m -> e <= 0 -> m <= 2 ^ (- e) -> Zdigits2 m + e <= 1.
Proof.
  intros Hm He Hle. destruct m as [|p|p]; cbn [Zdigits2]; try lia.
  pose proof (digits2_pos_lower p) as Hd.
  assert (Hpow : 2 ^ Z.pos (digits2_pos p) <= 2 ^ (1 - e)).
  { replace (1 - e) with (Z.succ (- e)) by lia.
    rewrite Z.pow_succ_r by lia. lia. }
  apply (proj2 (Z.pow_le_mono_r_iff 2 _ (1 - e) ltac:(lia) ltac:(lia))) in Hpow.
  lia.
Qed.

Lemma fexp_nonpos (d : Z) : d <= 1 -> fexp prec emax d <= 0.
Proof. unfold fexp, emin. lia. Qed.

(** One step of the right shift: halve the mantissa, remember the bit that
    fell off and whether anything fell off before. *)
Lemma shr_1_fields (r : shr_record) :
  0 <= shr_m r ->
  shr_m (shr_1 r) = shr_m r / 2
  /\ shr_r (shr_1 r) = Z.odd (shr_m r)
  /\ shr_s (shr_1 r) = shr_r r || shr_s r.
Proof.
  destruct r as [m rr ss]. simpl. intro Hm.
  destruct m as [|[p|p|]|p]; try lia; simpl; repeat split.
  - rewrite (Pos2Z.inj_xI p).
    apply Z.div_unique with (r := 1); lia.
  - rewrite (Pos2Z.inj_xO p).
    apply Z.div_unique with (r := 0); lia.
Qed.

Lemma iter_pos_invariant (A : Type) (f : A -> A) (P : Z -> A -> Prop) :
  (forall k x, 0 <= k -> P k x -> P (k + 1) (f x)) ->
  forall p k x, 0 <= k -> P k x -> P (k + Z.pos p) (iter_pos f p x).
Proof.
  intro Hstep. induction p as [p IH|p IH|]; intros k x Hk HP; simpl.
  - replace (k + Z.pos p~1) with (k + 1 + Z.pos p + Z.pos p) by lia.
    apply IH; [lia|]. apply IH; [lia|]. apply Hstep; assumption.
  - replace (k + Z.pos p~0) with (k + Z.pos p + Z.pos p) by lia.
    apply IH; [lia|]. apply IH; assumption.
  - apply Hstep; assumption.
Qed.

(** After [k] steps the record holds the quotient by [2^k], and its flags
    are raised only if the division was not exact. *)
Lemma shr_steps (orig : Z) (p : positive) :
  0 <= orig ->
  let r := iter_pos shr_1 p (Build_shr_record orig false false) in
  shr_m r = orig / 2 ^ Z.pos p
  /\ (shr_r r || shr_s r = true -> orig mod 2 ^ Z.pos p <> 0).
Proof.
  intro Horig.
  pose (P := fun (k : Z) (r : shr_record) =>
               shr_m r = orig / 2 ^ k
               /\ (shr_r r || shr_s r = true -> orig mod 2 ^ k <> 0)).
  assert (Hstep : forall k x, 0 <= k -> P k x -> P (k + 1) (shr_1 x)).
  { intros k x Hk [Hm Hflags].
    assert (Hpos : 0 < 2 ^ k) by (apply Z.pow_pos_nonneg; lia).
    assert (Hmx : 0 <= shr_m x)
      by (rewrite Hm; apply Z.div_pos; lia).
    destruct (shr_1_fields x Hmx) as (Hm' & Hr' & Hs').
    assert (Hpow : 2 ^ (k + 1) = 2 ^ k * 2)
      by (rewrite Z.pow_add_r by lia; reflexivity).
    split.
    - rewrite Hm', Hm, Hpow, Z.div_div by lia. reflexivity.
    - rewrite Hr', Hs'. intros Hor Hmod.
      apply Z.mod_divide in Hmod; [|lia].
      destruct Hmod as [q Hq].
      apply orb_true_iff in Hor. destruct Hor as [Hodd|Hold].
      + rewrite Hm in Hodd.
        replace orig with (2 * q * 2 ^ k) in Hodd by (rewrite Hq, Hpow; ring).
        rewrite Z.div_mul in Hodd by lia.
        rewrite Z.odd_even in Hodd. discriminate.
      + apply (Hflags Hold).
        replace orig with (2 * q * 2 ^ k) by (rewrite Hq, Hpow; ring).
        apply Z.mod_mul. lia. }
  assert (H0 : P 0 (Build_shr_record orig false false)).
  { split; simpl; [rewrite Z.div_1_r; reflexivity|discriminate]. }
  exact (@iter_pos_invariant _ shr_1 P Hstep p 0 _ (Z.le_refl 0) H0).
Qed.

(** Rounding the shifted mantissa to nearest cannot pass the power of two
    that bounded the original. *)
Lemma round_after_shift (orig n e1 : Z) (r : shr_record) :
  0 <= orig -> 0 < n -> e1 <= 0 -> orig <= 2 ^ (- e1 + n) ->
  shr_m r = orig / 2 ^ n ->
  (shr_r r || shr_s r = true -> orig mod 2 ^ n <> 0) ->
  0 <= shr_m r <= 2 ^ (- e1)
  /\ 0 <= round_nearest_even (shr_m r) (loc_of_shr_record r) <= 2 ^ (- e1).
Proof.
  intros Horig Hn He1 Hle Hm Hflags.
  assert (Hpn : 0 < 2 ^ n) by (apply Z.pow_pos_nonneg; lia).
  assert (Hpe : 0 < 2 ^ (- e1)) by (apply Z.pow_pos_nonneg; lia).
  rewrite Z.pow_add_r in Hle by lia.
  assert (Hlo : 0 <= shr_m r) by (rewrite Hm; apply Z.div_pos; lia).
  assert (Hhi : shr_m r <= 2 ^ (- e1))
    by (rewrite Hm; apply Z.div_le_upper_bound; lia).
  split; [lia|].
  assert (Hstrict : shr_r r || shr_s r = true -> shr_m r + 1 <= 2 ^ (- e1)).
  { intro Hor. specialize (Hflags Hor).
    destruct (Z.eq_dec (shr_m r) (2 ^ (- e1))) as [Heq|Hneq]; [|lia].
    exfalso. apply Hflags.
    pose proof (Z.mul_div_le orig (2 ^ n) Hpn) as Hfloor.
    rewrite <- Hm, Heq in Hfloor.
    assert (Heq' : orig = 2 ^ (- e1) * 2 ^ n) by lia.
    rewrite Heq'. apply Z.mod_mul. lia. }
  destruct r as [m [|] [|]]; simpl in *.
  - specialize (Hstrict eq_refl). lia.
  - specialize (Hstrict eq_refl). destruct (Z.even m); lia.
  - lia.
  - lia.
Qed.

(** One alignment pass on an exactly known magnitude of at most one. *)
Lemma shr_fexp_within_unit (m e : Z) :
  0 <= m -> e <= 0 -> m <= 2 ^ (- e) ->
  forall r e', shr_fexp prec emax m e loc_Exact = (r, e') ->
    e' <= 0
    /\ 0 <= shr_m r <= 2 ^ (- e')
    /\ 0 <= round_nearest_even (shr_m r) (loc_of_shr_record r) <= 2 ^ (- e').
Proof.
  intros Hm He Hle r e'. unfold shr_fexp, shr. simpl shr_record_of_loc.
  pose proof (fexp_nonpos (Zdigits2_plus_exponent Hm He Hle)) as Hf.
  destruct (fexp prec emax (Zdigits2 m + e) - e) as [|p|p] eqn:En;
    intro H; injection H as <- <-.
  - simpl. lia.
  - destruct (shr_steps p Hm) as [Hq Hflags].
    assert (He' : e + Z.pos p <= 0) by lia.
    split; [exact He'|].
    apply (@round_after_shift m (Z.pos p)); try lia; try assumption.
    replace (- (e + Z.pos p) + Z.pos p) with (- e) by lia. exact Hle.
  - simpl. lia.
Qed.

Lemma binary_round_aux_within_unit (sx : bool) (mx : positive) (ex : Z) :
  ex <= 0 -> Z.pos mx <= 2 ^ (- ex) ->
  JS.within_unit (binary_round_aux prec emax sx (Z.pos mx) ex loc_Exact) = true.
Proof.
  intros He Hle. unfold binary_round_aux.
  destruct (shr_fexp prec emax (Z.pos mx) ex loc_Exact) as [r1 e1] eqn:E1.
  destruct (@shr_fexp_within_unit (Z.pos mx) ex ltac:(lia) He Hle _ _ E1)
    as (He1 & _ & Hround).
  destruct (shr_fexp prec emax
              (round_nearest_even (shr_m r1) (loc_of_shr_record r1)) e1 loc_Exact)
    as [r2 e2] eqn:E2.
  destruct (@shr_fexp_within_unit _ e1 (proj1 Hround) He1 (proj2 Hround) _ _ E2)
    as (He2 & Hm2 & _).
  destruct (shr_m r2) as [|m|m]; [reflexivity| |lia].
  replace (e2 <=? emax - prec) with true by (symmetry; apply Z.leb_le; lia).
  apply within_unit_finite. lia.
Qed.

Lemma iter_xO (m : positive) (d : positive) :
  Z.pos (Pos.iter xO m d) = Z.pos m * 2 ^ Z.pos d.
Proof.
  revert m. induction d as [|d IH] using Pos.peano_ind; intro m.
  - simpl. lia.
  - rewrite Pos.iter_succ, (Pos2Z.inj_xO (Pos.iter xO m d)), IH, Pos2Z.inj_succ, Z.pow_succ_r by lia.
    ring.
Qed.

Lemma binary_round_within_unit (s : bool) (m : positive) (e : Z) :
  JS.within_unit (S754_finite s m e) = true ->
  JS.within_unit (binary_round prec emax s m e) = true.
Proof.
  intro H. apply within_unit_finite in H. destruct H as [He Hm].
  unfold binary_round, shl_align.
  destruct (fexp prec emax (Z.pos (digits2_pos m) + e) - e) as [|d|d] eqn:Ed;
    try (apply binary_round_aux_within_unit; assumption).
  apply binary_round_aux_within_unit.
  - pose proof (@fexp_nonpos (Z.pos (digits2_pos m) + e)
                  (@Zdigits2_plus_exponent (Z.pos m) e ltac:(lia) He Hm)). lia.
  - rewrite iter_xO.
    replace (- fexp prec emax (Z.pos (digits2_pos m) + e))
      with (- e + Z.pos d) by lia.
    rewrite Z.pow_add_r by lia.
    apply Z.mul_le_mono_nonneg_r; [|exact Hm].
    apply Z.pow_nonneg. lia.
Qed.

Lemma SFmul_within_unit (x y : spec_float) :
  JS.within_unit x = true -> JS.within_unit y = true ->
  JS.within_unit (SFmul prec emax x y) = true.
Proof.
  destruct x as [sx|sx| |sx mx ex], y as [sy|sy| |sy my ey];
    try discriminate; try reflexivity.
  intros Hx Hy.
  apply within_unit_finite in Hx. apply within_unit_finite in Hy.
  destruct Hx as [Hex Hmx], Hy as [Hey Hmy]. simpl.
  apply binary_round_aux_within_unit; [lia|].
  rewrite Pos2Z.inj_mul.
  replace (- (ex + ey)) with (- ex + - ey) by lia.
  rewrite Z.pow_add_r by lia.
  apply Z.mul_le_mono_nonneg; lia.
Qed.

End UnitInterval.

(** ** The clamped intensity fits a byte *)

Section Mantissa.

Local Open Scope Z_scope.

Variables prec emax : Z.
Hypothesis prec_nonneg : 0 <= prec.

Lemma digits2_pos_upper (m : positive) :
  Z.pos m < 2 ^ Z.pos (digits2_pos m).
Proof.
  induction m as [p IH|p IH|]; simpl digits2_pos.
  - rewrite Pos2Z.inj_succ, Z.pow_succ_r, (Pos2Z.inj_xI p) by lia. lia.
  - rewrite Pos2Z.inj_succ, Z.pow_succ_r, (Pos2Z.inj_xO p) by lia. lia.
  - simpl. lia.
Qed.

Lemma Zdigits2_upper (m : Z) : 0 <= m -> m < 2 ^ Zdigits2 m.
Proof.
  destruct m as [|p|p]; intro Hm; cbn [Zdigits2]; try lia.
  apply digits2_pos_upper.
Qed.

Lemma Zdigits2_nonneg (m : Z) : 0 <= Zdigits2 m.
Proof. destruct m; simpl; lia. Qed.

(** An alignment pass leaves a mantissa of at most [prec] bits. *)
Lemma shr_fexp_mantissa (m e : Z) :
  0 <= m ->
  forall r e', shr_fexp prec emax m e loc_Exact = (r, e') ->
    0 <= shr_m r < 2 ^ prec
    /\ shr_m r <= round_nearest_even (shr_m r) (loc_of_shr_record r).
Proof.
  intros Hm r e'. unfold shr_fexp, shr. simpl shr_record_of_loc.
  pose proof (Zdigits2_upper Hm) as Hd.
  pose proof (Zdigits2_nonneg m) as Hd0.
  assert (Hf : Zdigits2 m + e - prec <= fexp prec emax (Zdigits2 m + e))
    by (unfold fexp; lia).
  assert (Hsmall : fexp prec emax (Zdigits2 m + e) - e <= 0 -> m < 2 ^ prec).
  { intro Hn.
    assert (2 ^ Zdigits2 m <= 2 ^ prec) by (apply Z.pow_le_mono_r; lia). lia. }
  destruct (fexp prec emax (Zdigits2 m + e) - e) as [|p|p] eqn:En;
    intro H; injection H as <- <-.
  - simpl. lia.
  - destruct (shr_steps p Hm) as [Hq _].
    assert (Hpp : 0 < 2 ^ Z.pos p) by (apply Z.pow_pos_nonneg; lia).
    split.
    + rewrite Hq. split; [apply Z.div_pos; lia|].
      apply Z.div_lt_upper_bound; [lia|].
      rewrite <- Z.pow_add_r by lia.
      assert (2 ^ Zdigits2 m <= 2 ^ (Z.pos p + prec))
        by (apply Z.pow_le_mono_r; lia).
      lia.
    + destruct (iter_pos shr_1 p _) as [m' [|] [|]];
        cbn [shr_m loc_of_shr_record round_nearest_even];
        try destruct (Z.even m'); lia.
  - simpl. lia.
Qed.

(** The result of rounding a non-negative mantissa: a zero, an infinity or
    a finite number with a mantissa of at most [prec] bits, of the sign
    asked for. *)
Lemma binary_round_aux_shape (sx : bool) (mx ex : Z) :
  0 <= mx ->
  let x := binary_round_aux prec emax sx mx ex loc_Exact in
  x = S754_zero sx \/ x = S754_infinity sx
  \/ exists m e, x = S754_finite sx m e /\ Z.pos m < 2 ^ prec.
Proof.
  intro Hmx. unfold binary_round_aux.
  destruct (shr_fexp prec emax mx ex loc_Exact) as [r1 e1] eqn:E1.
  destruct (shr_fexp_mantissa ex Hmx E1) as [Hr1 Hround].
  destruct (shr_fexp prec emax
              (round_nearest_even (shr_m r1) (loc_of_shr_record r1)) e1 loc_Exact)
    as [r2 e2] eqn:E2.
  assert (Hpos : 0 <= round_nearest_even (shr_m r1) (loc_of_shr_record r1))
    by lia.
  destruct (shr_fexp_mantissa e1 Hpos E2) as [Hr2 _].
  destruct (shr_m r2) as [|m2|m2]; [auto| |lia].
  destruct (e2 <=? emax - prec); [|auto].
  right. right. exists m2, e2. split; [reflexivity|lia].
Qed.

End Mantissa.

Section Intensity.

Import SpectrographVisualizer.

Local Open Scope Z_scope.

(** [|sample| * 1000] is NaN, [+0], [+infinity], or positive with a
    mantissa of at most 53 bits. *)
Lemma scaled_magnitude_shape (sample : JS.number) :
  let p := JS.mul (JS.Math_abs sample) (JS.of_Z 1000) in
  p = S754_nan \/ p = S754_zero false \/ p = S754_infinity false
  \/ exists m e, p = S754_finite false m e /\ Z.pos m < 2 ^ 53.
Proof.
  change (JS.of_Z 1000) with (S754_finite false 8796093022208000 (-43)).
  destruct sample as [s|s| |s m e];
    unfold JS.mul; cbn [JS.Math_abs SFabs SFmul xorb]; auto.
  destruct (@binary_round_aux_shape 53 1024 ltac:(lia) false
              (Z.pos (m * 8796093022208000)) (e + -43) ltac:(lia))
    as [H|[H|H]]; auto.
Qed.

(** The clamp leaves a number whose integer part is between 0 and 255. *)
Lemma clamp_range (p : JS.number) :
  (p = S754_nan \/ p = S754_zero false \/ p = S754_infinity false
   \/ exists m e, p = S754_finite false m e /\ Z.pos m < 2 ^ 53) ->
  0 <= JS.truncate (JS.Math_min (JS.of_Z 255) (JS.Math_max (JS.of_Z 0) p)) <= 255.
Proof.
  change (JS.of_Z 255) with (S754_finite false 8972014882652160 (-45)).
  change (JS.of_Z 0) with (S754_zero false).
  assert (H255 : JS.truncate (S754_finite false 8972014882652160 (-45)) = 255)
    by (vm_compute; reflexivity).
  intros [->|[->|[->|(m & e & -> & Hm)]]];
    try (cbn [JS.Math_max JS.Math_min SFcompare JS.truncate]; lia).
  - cbn [JS.Math_max JS.Math_min SFcompare]. rewrite H255. lia.
  - unfold JS.Math_max, JS.Math_min. cbn [SFcompare].
    destruct (Z.compare_spec (-45) e) as [He|He|He].
    + subst e. rewrite Pos.compare_cont_spec.
      destruct (Pos.compare_spec 8972014882652160 m) as [Hc|Hc|Hc];
        cbn [Pos.switch_Eq]; try (clear Hc; rewrite H255; lia).
      cbn [JS.truncate Z.leb Z.compare cond_Zopp Z.opp].
      assert (Hlt : Z.pos m < 2 ^ 45 * 255) by exact (Pos2Z.pos_lt_pos _ _ Hc).
      clear Hc.
      split; [apply Z.div_pos; lia|].
      apply Z.lt_le_incl, Z.div_lt_upper_bound; [reflexivity|exact Hlt].
    + rewrite H255. lia.
    + unfold JS.truncate.
      replace (0 <=? e) with false by (symmetry; apply Z.leb_gt; lia).
      cbn [cond_Zopp].
      assert (Hp : 2 ^ 46 <= 2 ^ (- e)) by (apply Z.pow_le_mono_r; lia).
      assert (Hpos : 0 < 2 ^ (- e)) by (apply Z.pow_pos_nonneg; lia).
      split; [apply Z.div_pos; lia|].
      apply Z.lt_le_incl, Z.div_lt_upper_bound; [exact Hpos|].
      apply Z.lt_le_trans with (2 ^ 46 * 128); [exact Hm|].
      apply Z.mul_le_mono_nonneg; lia.
Qed.

(** The byte stored for a bin is the integer part of the clamped
    intensity: the conversion to a byte never wraps. *)
Lemma intensity_fits_byte (sample : JS.number) :
  0 <= JS.truncate (intensityOf sample) <= 255
  /\ JS.ToUint8 (intensityOf sample) = JS.truncate (intensityOf sample).
Proof.
  pose proof (clamp_range (scaled_magnitude_shape sample)) as H.
  split; [exact H|].
  unfold JS.ToUint8. apply Z.mod_small.
  unfold intensityOf. lia.
Qed.

End Intensity.

(** ** Saving a recording *)

Section Saving.

Import AudioVisualizer.

Local Open Scope string_scope.

(** The effects of a save that goes through, for the merged array [merged]. *)
Lemma handleSaveRecording_run (cl s : State) (url iso : string)
  (merged : Float32Array.t) :
  recordedData cl <> [] ->
  mergeRecorded (recordedData cl) = Some merged ->
  handleSaveRecording cl url iso s
  = (Normal tt, s,
     let link := {| href := url;
                    download := "radio-astronomy-recording-" ++ timestamp iso ++ ".dat" |} in
     [new_Blob merged "application/octet-stream";
      createObjectURL merged;
      appendChild link; click link; removeChild link;
      toast "Recording Saved" "Your data has been saved to a file"]).
Proof.
  intros Hne Hm. unfold handleSaveRecording.
  destruct (recordedData cl) as [|b rest] eqn:E; [congruence|].
  rewrite Hm. reflexivity.
Qed.

(** C1. Saving a non-empty recording completes normally and the array
    handed to the blob is the concatenation, in recording order, of the
    recorded buffers; its length is the sum of the buffers' lengths, so no
    sample is lost or added by the save. *)
Theorem save_concatenates_recorded_buffers (cl s : State) (url iso : string) :
  recordedData cl <> [] ->
  mergeRecorded (recordedData cl) = Some (concat (recordedData cl))
  /\ length (concat (recordedData cl))
     = list_sum (List.map (@length JS.number) (recordedData cl))
  /\ exists others,
       handleSaveRecording cl url iso s
       = (Normal tt, s,
          new_Blob (concat (recordedData cl)) "application/octet-stream" :: others).
Proof.
  intro Hne. split; [apply mergeRecorded_concat|].
  split; [apply length_concat_sum|].
  eexists.
  rewrite (@handleSaveRecording_run cl s url iso _ Hne (mergeRecorded_concat _)).
  reflexivity.
Qed.

Lemma save_concatenates_recorded_buffers_witness :
  recordedData Sample.twoBuffers <> []
  /\ mergeRecorded (recordedData Sample.twoBuffers)
     = Some [Sample.half; Sample.half; Sample.minus_one].
Proof.
  split; [discriminate|].
  exact (proj1 (@save_concatenates_recorded_buffers Sample.twoBuffers initial
                  "blob:0" "2024-01-02T03:04:05.678Z"
                  ltac:(discriminate))).
Defined.

(** C4. With nothing recorded the save handler returns at once: it
    completes normally, emits no effect at all (no blob, no link, no
    toast) and leaves the component state as it was. *)
Theorem save_of_empty_recording_is_noop (cl s : State) (url iso : string) :
  recordedData cl = [] ->
  handleSaveRecording cl url iso s = (Normal tt, s, []).
Proof.
  intro E. unfold handleSaveRecording. rewrite E. reflexivity.
Qed.

Lemma save_of_empty_recording_is_noop_witness :
  recordedData initial = []
  /\ handleSaveRecording initial "blob:0" "2024-01-02T03:04:05.678Z" Sample.twoBuffers
     = (Normal tt, Sample.twoBuffers, []).
Proof.
  split; [reflexivity|].
  apply save_of_empty_recording_is_noop. reflexivity.
Defined.

End Saving.

(** ** Per-frame sampling and the recording session *)

Section Sampling.

Import AudioVisualizer.

(** What one call of [updateData] does once its guard has let it through. *)
Lemma updateData_run (cl s : State) (dataArray : Float32Array.t) :
  isRecording cl = true -> analyser cl <> None ->
  updateData cl dataArray s
  = (Normal tt,
     stateAfter
       (setRecordedData_with
          (fun prev => prev ++ [Float32Array.map (fun value => JS.mul value (gain cl)) dataArray]))
       (stateAfter
          (setAudioData
             (Some (Float32Array.map (fun value => JS.mul value (gain cl)) dataArray))) s),
     [requestAnimationFrame "updateData"]).
Proof.
  intros Hrec Han. unfold updateData. rewrite Hrec.
  destruct (analyser cl); [|congruence]. reflexivity.
Qed.

Lemma updateData_recorded (cl s : State) (dataArray : Float32Array.t) :
  recordedData (stateAfter (updateData cl dataArray) s)
  = recordedData s ++ captured (cl, dataArray).
Proof.
  unfold updateData, captured.
  destruct (negb (isRecording cl) || isNull (analyser cl)).
  - simpl. rewrite app_nil_r. reflexivity.
  - reflexivity.
Qed.

Lemma updateData_completes (cl s : State) (dataArray : Float32Array.t) :
  fst (fst (updateData cl dataArray s)) = Normal tt.
Proof.
  unfold updateData.
  destruct (negb (isRecording cl) || isNull (analyser cl)); reflexivity.
Qed.

Lemma ticks_recorded (calls : list (State * Float32Array.t)) :
  forall s,
    recordedData (stateAfter (ticks calls) s)
    = recordedData s ++ flat_map captured calls.
Proof.
  induction calls as [|[cl dataArray] rest IH]; intro s.
  - simpl. rewrite app_nil_r. reflexivity.
  - cbn [ticks flat_map]. unfold stateAfter, bind.
    pose proof (updateData_completes cl s dataArray) as Hc.
    pose proof (updateData_recorded cl s dataArray) as Hr.
    unfold stateAfter in Hr.
    destruct (updateData cl dataArray s) as [[c s1] l1]. simpl in Hc, Hr.
    subst c.
    specialize (IH s1). unfold stateAfter in IH.
    destruct (ticks rest s1) as [[c2 s2] l2]. simpl in IH |- *.
    rewrite IH, Hr, app_assoc. reflexivity.
Qed.

(** A tick of the sampling loop (guard passed: the loop's render was
    recording and had an analyser) publishes as [audioData] a buffer of the
    length of [dataArray] whose element [i] is [dataArray[i]] times the gain
    of the render that started the loop, the product being taken as the
    code takes it: the binary64 product, stored as an element of the new
    [Float32Array].  The same buffer is appended to the recording.  The
    state [s] the tick finds, its gain included, has no part in the
    buffer. *)
Lemma tick_scales_buffer_by_gain (cl s : State) (dataArray : Float32Array.t) :
  isRecording cl = true -> analyser cl <> None ->
  exists amplifiedData,
    audioData (stateAfter (updateData cl dataArray) s) = Some amplifiedData
    /\ amplifiedData = Float32Array.map (fun value => JS.mul value (gain cl)) dataArray
    /\ length amplifiedData = length dataArray
    /\ (forall i,
          nth_error amplifiedData i
          = option_map (fun value => JS.fround (JS.mul value (gain cl)))
              (Float32Array.get dataArray i))
    /\ recordedData (stateAfter (updateData cl dataArray) s)
       = recordedData s ++ [amplifiedData].
Proof.
  intros Hrec Han.
  exists (Float32Array.map (fun value => JS.mul value (gain cl)) dataArray).
  unfold stateAfter. rewrite (@updateData_run cl s dataArray Hrec Han).
  simpl.
  split; [reflexivity|].
  split; [reflexivity|].
  split; [apply length_map|].
  split; [|reflexivity].
  intro i. unfold Float32Array.map, Float32Array.get.
  rewrite nth_error_map.
  destruct (nth_error dataArray i); reflexivity.
Qed.

Lemma tick_scales_buffer_by_gain_witness :
  isRecording (Sample.recordingWith (JS.of_Z 10)) = true
  /\ analyser (Sample.recordingWith (JS.of_Z 10)) <> None
  /\ audioData (stateAfter
                  (updateData (Sample.recordingWith (JS.of_Z 10))
                     [Sample.half; Sample.minus_one]) initial)
     = Some [JS.fround (JS.of_Z 5); JS.fround (JS.of_Z (-10))].
Proof.
  split; [reflexivity|]. split; [discriminate|].
  destruct (@tick_scales_buffer_by_gain (Sample.recordingWith (JS.of_Z 10)) initial
              [Sample.half; Sample.minus_one] eq_refl ltac:(discriminate))
    as (amplified & -> & -> & _).
  vm_compute. reflexivity.
Defined.

(** C5. The buffer a tick publishes is not scaled by the current gain when
    the slider has moved since the loop was started.  The effect that
    starts the loop depends on [gain] and returns an empty cleanup, so the
    loop of the earlier render keeps running beside the new one.  Recording
    at gain 10, then the slider set to 1: the new render starts a second
    loop, and the next tick of the first loop publishes the buffer [[0.5]]
    as [[5]], where the current gain gives [[0.5]]; the recording takes
    both buffers.  In general a tick of a running loop publishes the buffer
    scaled by the gain of the loop's own render, whatever the slider was
    set to since. *)
Theorem stale_loop_scales_by_old_gain :
  let started := Sample.recordingWith (JS.of_Z 10) in
  let moved := stateAfter (setGain (JS.of_Z 1)) started in
  gain moved = JS.of_Z 1
  /\ Recorder.samplingEffect moved [Sample.half] moved
     = updateData moved [Sample.half] moved
  /\ audioData (stateAfter (updateData moved [Sample.half]) moved)
     = Some [Sample.half]
  /\ audioData (stateAfter (updateData started [Sample.half]) moved)
     = Some [JS.fround (JS.of_Z 5)]
  /\ Float32Array.map (fun value => JS.mul value (gain moved)) [Sample.half]
     = [Sample.half]
  /\ JS.fround (JS.of_Z 5) <> Sample.half
  /\ recordedData
       (stateAfter
          (ticks [(moved, [Sample.half]); (started, [Sample.half])]) moved)
     = [[Sample.half]; [JS.fround (JS.of_Z 5)]]
  /\ (forall (cl s : State) (g : JS.number) (dataArray : Float32Array.t),
         isRecording cl = true -> analyser cl <> None ->
         audioData (stateAfter (updateData cl dataArray)
                      (stateAfter (setGain g) s))
         = Some (Float32Array.map (fun value => JS.mul value (gain cl))
                   dataArray)).
Proof.
  intros started moved.
  split; [reflexivity|].
  split; [reflexivity|].
  split; [vm_compute; reflexivity|].
  split; [vm_compute; reflexivity|].
  split; [vm_compute; reflexivity|].
  split; [vm_compute; discriminate|].
  split; [vm_compute; reflexivity|].
  intros cl s g dataArray Hrec Han.
  unfold stateAfter at 1.
  rewrite (@updateData_run cl (stateAfter (setGain g) s) dataArray Hrec Han).
  reflexivity.
Qed.

(** C10. Whatever the component held before, [handleStartRecording] leaves
    an empty recording; what the recording holds after any run of ticks that
    follows is exactly what those ticks captured, in order, and a save from
    the render that follows puts exactly that into the blob.  Nothing
    recorded before the start survives it. *)
Theorem start_discards_previous_recording (s : State)
  (calls : list (State * Float32Array.t)) (url iso : string) :
  let started := stateAfter handleStartRecording s in
  let later := stateAfter (ticks calls) started in
  recordedData started = []
  /\ isRecording started = true
  /\ recordedData later = flat_map captured calls
  /\ mergeRecorded (recordedData later) = Some (concat (flat_map captured calls))
  /\ (flat_map captured calls <> [] ->
      exists others,
        handleSaveRecording later url iso later
        = (Normal tt, later,
           new_Blob (concat (flat_map captured calls)) "application/octet-stream"
             :: others)).
Proof.
  intros started later.
  split; [reflexivity|]. split; [reflexivity|].
  assert (H : recordedData later = flat_map captured calls)
    by (unfold later; rewrite ticks_recorded; reflexivity).
  split; [exact H|].
  split; [rewrite H; apply mergeRecorded_concat|].
  intro Hne. eexists.
  rewrite (@handleSaveRecording_run later later url iso
             (concat (flat_map captured calls))).
  - reflexivity.
  - rewrite H. exact Hne.
  - rewrite H. apply mergeRecorded_concat.
Qed.

End Sampling.

(** ** The range of the published samples *)

Section SampleRange.

Import AudioVisualizer.

Lemma promote_within_unit (x : JS.number) :
  JS.within_unit x = true -> JS.within_unit (JS.promote x) = true.
Proof.
  destruct x as [s|s| |s m e]; simpl; auto.
  apply binary_round_within_unit; lia.
Qed.

Lemma fround_within_unit (x : JS.number) :
  JS.within_unit x = true -> JS.within_unit (JS.fround x) = true.
Proof.
  destruct x as [s|s| |s m e]; simpl; auto.
  apply binary_round_within_unit; lia.
Qed.

Lemma mul_within_unit (x y : JS.number) :
  JS.within_unit x = true -> JS.within_unit y = true ->
  JS.within_unit (JS.mul x y) = true.
Proof. apply SFmul_within_unit; lia. Qed.

(** Scaling by a gain of magnitude at most one keeps a buffer in [-1, 1]. *)
Lemma map_gain_within_unit (g : JS.number) (dataArray : Float32Array.t) :
  JS.within_unit g = true ->
  Forall (fun v => JS.within_unit v = true) dataArray ->
  Forall (fun v => JS.within_unit v = true)
    (Float32Array.map (fun value => JS.mul value g) dataArray).
Proof.
  intros Hg H. unfold Float32Array.map.
  induction H as [|v rest Hv Hrest IH]; simpl; constructor; [|exact IH].
  apply fround_within_unit, mul_within_unit; [|exact Hg].
  apply promote_within_unit, Hv.
Qed.

Example within_unit_examples :
  JS.within_unit Sample.half = true
  /\ JS.within_unit Sample.minus_one = true
  /\ JS.within_unit (JS.fround (JS.dyadic 8388609 (-23))) = false
  /\ JS.within_unit (JS.fround (JS.of_Z 5)) = false.
Proof. vm_compute. repeat split. Qed.

(** C2, as stated, fails: with the gain at 10, which the slider allows, a
    tick on the one-sample buffer [[0.5]] (inside [-1, 1]) publishes [[5]]. *)
Lemma gain_ten_leaves_unit_interval :
  ~ (forall (cl s : State) (dataArray : Float32Array.t),
        isRecording cl = true -> analyser cl <> None ->
        Forall (fun v => JS.within_unit v = true) dataArray ->
        forall buf,
          audioData (stateAfter (updateData cl dataArray) s) = Some buf ->
          Forall (fun v => JS.within_unit v = true) buf).
Proof.
  intro H.
  specialize (H (Sample.recordingWith (JS.of_Z 10)) initial [Sample.half]
                eq_refl ltac:(discriminate)
                ltac:(repeat constructor)
                [JS.fround (JS.of_Z 5)] ltac:(vm_compute; reflexivity)).
  inversion H as [|v rest Hv Hrest]. vm_compute in Hv. discriminate.
Qed.

(** C2, amended.  A tick publishes and records a buffer whose values all
    lie in [-1, 1] whenever the samples delivered by the analyser lie in
    [-1, 1] and the gain of the loop's render has magnitude at most one. *)
Theorem tick_within_unit_for_small_gain (cl s : State)
  (dataArray : Float32Array.t) :
  isRecording cl = true -> analyser cl <> None ->
  JS.within_unit (gain cl) = true ->
  Forall (fun v => JS.within_unit v = true) dataArray ->
  exists buf,
    audioData (stateAfter (updateData cl dataArray) s) = Some buf
    /\ recordedData (stateAfter (updateData cl dataArray) s)
       = recordedData s ++ [buf]
    /\ Forall (fun v => JS.within_unit v = true) buf.
Proof.
  intros Hrec Han Hg Hdata.
  exists (Float32Array.map (fun value => JS.mul value (gain cl)) dataArray).
  unfold stateAfter. rewrite (@updateData_run cl s dataArray Hrec Han).
  simpl.
  split; [reflexivity|]. split; [reflexivity|].
  apply map_gain_within_unit; assumption.
Qed.

Lemma tick_within_unit_for_small_gain_witness :
  isRecording (Sample.recordingWith (JS.dyadic 1 (-1))) = true
  /\ analyser (Sample.recordingWith (JS.dyadic 1 (-1))) <> None
  /\ JS.within_unit (gain (Sample.recordingWith (JS.dyadic 1 (-1)))) = true
  /\ Forall (fun v => JS.within_unit v = true) [Sample.half; Sample.minus_one]
  /\ exists buf,
       audioData (stateAfter
                    (updateData (Sample.recordingWith (JS.dyadic 1 (-1)))
                       [Sample.half; Sample.minus_one]) initial) = Some buf
       /\ Forall (fun v => JS.within_unit v = true) buf.
Proof.
  split; [reflexivity|]. split; [discriminate|]. split; [reflexivity|].
  assert (Hdata : Forall (fun v => JS.within_unit v = true)
                    [Sample.half; Sample.minus_one])
    by (repeat constructor).
  split; [exact Hdata|].
  destruct (@tick_within_unit_for_small_gain
              (Sample.recordingWith (JS.dyadic 1 (-1))) initial
              [Sample.half; Sample.minus_one]
              eq_refl ltac:(discriminate) eq_refl Hdata)
    as (buf & Ha & _ & Hall).
  exists buf. split; assumption.
Defined.

End SampleRange.

(** ** The spectrum history *)

Section SpectrumHistory.

Import SpectrographVisualizer.

Lemma store_length (a : Uint8Array.t) (i : nat) (x : JS.number) :
  length (Uint8Array.store a i x) = length a.
Proof.
  revert i; induction a as [|b rest IH]; intros [|j]; simpl; auto.
Qed.

Lemma store_same (a : Uint8Array.t) (i : nat) (x : JS.number) (d : Z) :
  i < length a -> nth i (Uint8Array.store a i x) d = JS.ToUint8 x.
Proof.
  revert i; induction a as [|b rest IH]; intros [|j] Hi; simpl in *;
    try lia; auto.
  apply IH. lia.
Qed.

Lemma store_other (a : Uint8Array.t) (i j : nat) (x : JS.number) (d : Z) :
  j <> i -> nth j (Uint8Array.store a i x) d = nth j a d.
Proof.
  revert i j; induction a as [|b rest IH]; intros [|i] [|j] Hne; simpl;
    try congruence; auto.
Qed.

Lemma ToUint8_range (x : JS.number) : (0 <= JS.ToUint8 x <= 255)%Z.
Proof.
  unfold JS.ToUint8.
  pose proof (Z.mod_pos_bound (JS.truncate x) 256 ltac:(lia)). lia.
Qed.

Lemma store_bytes (a : Uint8Array.t) (i : nat) (x : JS.number) :
  Forall (fun b => (0 <= b <= 255)%Z) a ->
  Forall (fun b => (0 <= b <= 255)%Z) (Uint8Array.store a i x).
Proof.
  intro H; revert i; induction H as [|b rest Hb Hrest IH]; intros [|j]; simpl;
    constructor; auto using ToUint8_range.
Qed.

(** The resampling index stays inside a non-empty buffer. *)
Lemma sampleIndex_in_range (i len : nat) :
  i < 256 -> 0 < len -> sampleIndex i len < len.
Proof.
  intros Hi Hlen. unfold sampleIndex.
  apply Nat.Div0.div_lt_upper_bound. nia.
Qed.

Lemma fillBin_length (audioData : Float32Array.t) (buf : Uint8Array.t) (i : nat) :
  length (fillBin audioData buf i) = length buf.
Proof.
  unfold fillBin.
  destruct (_ <? _); [|reflexivity].
  destruct (Float32Array.get _ _); [apply store_length|reflexivity].
Qed.

Lemma fillBin_other (audioData : Float32Array.t) (buf : Uint8Array.t)
  (i j : nat) (d : Z) :
  j <> i -> nth j (fillBin audioData buf i) d = nth j buf d.
Proof.
  intro Hne. unfold fillBin.
  destruct (_ <? _); [|reflexivity].
  destruct (Float32Array.get _ _); [apply store_other; exact Hne|reflexivity].
Qed.

Lemma fillBin_bytes (audioData : Float32Array.t) (buf : Uint8Array.t) (i : nat) :
  Forall (fun b => (0 <= b <= 255)%Z) buf ->
  Forall (fun b => (0 <= b <= 255)%Z) (fillBin audioData buf i).
Proof.
  intro H. unfold fillBin.
  destruct (_ <? _); [|exact H].
  destruct (Float32Array.get _ _); [apply store_bytes; exact H|exact H].
Qed.

(** What iteration [i] of the loop writes into bin [i]. *)
Lemma fillBin_same (audioData : Float32Array.t) (buf : Uint8Array.t)
  (i : nat) (d : Z) :
  i < 256 -> i < length buf -> audioData <> [] ->
  exists sample,
    Float32Array.get audioData (sampleIndex i (length audioData)) = Some sample
    /\ nth i (fillBin audioData buf i) d = JS.ToUint8 (intensityOf sample).
Proof.
  intros Hi Hbuf Hne.
  assert (Hlen : 0 < length audioData)
    by (destruct audioData; [congruence|simpl; lia]).
  pose proof (sampleIndex_in_range Hi Hlen) as Hidx.
  unfold fillBin.
  replace (sampleIndex i (length audioData) <? length audioData) with true
    by (symmetry; apply Nat.ltb_lt; exact Hidx).
  unfold Float32Array.get.
  destruct (nth_error audioData (sampleIndex i (length audioData))) as [v|] eqn:E.
  - simpl. eexists; split; [reflexivity|]. apply store_same; exact Hbuf.
  - apply nth_error_None in E. lia.
Qed.

Lemma fold_fillBin_length (audioData : Float32Array.t) (l : list nat) :
  forall buf, length (fold_left (fillBin audioData) l buf) = length buf.
Proof.
  induction l as [|i rest IH]; intro buf; simpl; [reflexivity|].
  rewrite IH. apply fillBin_length.
Qed.

Lemma fold_fillBin_bytes (audioData : Float32Array.t) (l : list nat) :
  forall buf,
    Forall (fun b => (0 <= b <= 255)%Z) buf ->
    Forall (fun b => (0 <= b <= 255)%Z) (fold_left (fillBin audioData) l buf).
Proof.
  induction l as [|i rest IH]; intros buf H; simpl; [exact H|].
  apply IH, fillBin_bytes, H.
Qed.

(** After the first [n] iterations, every bin below [n] holds what its own
    iteration wrote. *)
Lemma loop_prefix (audioData : Float32Array.t) (buf : Uint8Array.t) (d : Z) :
  audioData <> [] ->
  forall n i, n <= 256 -> n <= length buf -> i < n ->
    exists sample,
      Float32Array.get audioData (sampleIndex i (length audioData)) = Some sample
      /\ nth i (fold_left (fillBin audioData) (seq 0 n) buf) d
         = JS.ToUint8 (intensityOf sample).
Proof.
  intros Hne n; induction n as [|n IH]; intros i Hn Hbuf Hi; [lia|].
  rewrite seq_S, fold_left_app. simpl.
  destruct (Nat.eq_dec i n) as [->|Hneq].
  - apply fillBin_same; [lia| |exact Hne].
    rewrite fold_fillBin_length. lia.
  - rewrite fillBin_other by exact Hneq.
    apply IH; lia.
Qed.

Lemma spectrumBufferOf_wellFormed (audioData : Float32Array.t) :
  wellFormed (spectrumBufferOf audioData).
Proof.
  unfold wellFormed, spectrumBufferOf. split.
  - rewrite fold_fillBin_length. apply repeat_length.
  - apply fold_fillBin_bytes, Forall_forall.
    intros b Hb. apply repeat_spec in Hb. lia.
Qed.

Lemma spectrumBufferOf_bin (audioData : Float32Array.t) (i : nat) :
  audioData <> [] -> i < 256 ->
  exists sample,
    Float32Array.get audioData (sampleIndex i (length audioData)) = Some sample
    /\ nth i (spectrumBufferOf audioData) 0%Z = JS.ToUint8 (intensityOf sample).
Proof.
  intros Hne Hi. unfold spectrumBufferOf.
  apply loop_prefix; [exact Hne|lia| |exact Hi].
  unfold Uint8Array.create. rewrite repeat_length. lia.
Qed.

(** The updater always puts the new vector first and keeps the most recent
    299 older ones behind it. *)
Lemma pushHistory_shape (spectrumBuffer : Uint8Array.t) (prev : list Uint8Array.t) :
  pushHistory spectrumBuffer prev
  = spectrumBuffer :: firstn (historyLengthRef_current - 1) prev.
Proof.
  unfold pushHistory.
  destruct (historyLengthRef_current <? length (spectrumBuffer :: prev)) eqn:E.
  - reflexivity.
  - apply Nat.ltb_ge in E. simpl in E.
    rewrite firstn_all2; [reflexivity|].
    unfold historyLengthRef_current in *. lia.
Qed.

Lemma reachable_wellFormed (h : list Uint8Array.t) :
  reachable h -> Forall wellFormed h.
Proof.
  induction 1 as [|audioData isActive h Hr IH]; [constructor|].
  unfold spectrumEffect.
  destruct audioData as [data|]; [|exact IH].
  destruct isActive; [|exact IH].
  unfold processSpectrum. rewrite pushHistory_shape.
  constructor; [apply spectrumBufferOf_wellFormed|].
  apply Forall_forall. intros e He.
  rewrite Forall_forall in IH. apply IH.
  rewrite <- (firstn_skipn (historyLengthRef_current - 1) h).
  apply in_or_app. left. exact He.
Qed.

(** The quotient used for the index is what binary64 arithmetic computes,
    checked here for the buffer length the analyser delivers (1024) and a
    few others. *)
Lemma sampleIndex_agrees_with_js :
  forallb (fun len =>
    forallb (fun i => match sampleIndex_js i len with
                      | Some z => Z.eqb z (Z.of_nat (sampleIndex i len))
                      | None => false
                      end) (seq 0 256))
    [1; 2; 3; 7; 100; 255; 256; 257; 1000; 1024; 2048] = true.
Proof. vm_compute. reflexivity. Qed.

(** C3. One run of [processSpectrum] never leaves more than
    [historyLengthRef.current] = 300 entries in the history, whatever the
    history and the audio buffer were before. *)
Theorem spectrum_history_capped (audioData : Float32Array.t)
  (spectrumHistory : list Uint8Array.t) :
  historyLengthRef_current = 300
  /\ length (processSpectrum audioData spectrumHistory) <= historyLengthRef_current.
Proof.
  split; [reflexivity|].
  unfold processSpectrum. rewrite pushHistory_shape.
  cbn [length]. rewrite length_firstn.
  unfold historyLengthRef_current. lia.
Qed.

(** C7. [processSpectrum] builds a vector of 256 bytes, each in [0, 255];
    for a non-empty audio buffer, bin [i] holds the clamped intensity
    [min(255, max(0, |audioData[floor(i/256 * length)]| * 1000))] as the
    byte store keeps it, which is its integer part (the store never wraps);
    the new vector becomes the head of the history and is followed by the
    previous entries in their order (all of them below the cap); hence every
    entry of every history the component can hold is such a vector. *)
Theorem spectrum_entries_and_order (audioData : Float32Array.t)
  (spectrumHistory : list Uint8Array.t) :
  wellFormed (spectrumBufferOf audioData)
  /\ (audioData <> [] ->
      forall i, i < 256 ->
        exists sample,
          Float32Array.get audioData (i * length audioData / 256) = Some sample
          /\ nth i (spectrumBufferOf audioData) 0%Z
             = JS.ToUint8
                 (JS.Math_min (JS.of_Z 255)
                    (JS.Math_max (JS.of_Z 0)
                       (JS.mul (JS.Math_abs sample) (JS.of_Z 1000))))
          /\ JS.ToUint8
               (JS.Math_min (JS.of_Z 255)
                  (JS.Math_max (JS.of_Z 0)
                     (JS.mul (JS.Math_abs sample) (JS.of_Z 1000))))
             = JS.truncate
                 (JS.Math_min (JS.of_Z 255)
                    (JS.Math_max (JS.of_Z 0)
                       (JS.mul (JS.Math_abs sample) (JS.of_Z 1000)))))
  /\ processSpectrum audioData spectrumHistory
     = spectrumBufferOf audioData :: firstn 299 spectrumHistory
  /\ (length spectrumHistory < 300 ->
      processSpectrum audioData spectrumHistory
      = spectrumBufferOf audioData :: spectrumHistory)
  /\ (reachable spectrumHistory ->
      Forall wellFormed (processSpectrum audioData spectrumHistory)).
Proof.
  split; [apply spectrumBufferOf_wellFormed|].
  split.
  { intros Hne i Hi.
    destruct (spectrumBufferOf_bin Hne Hi) as (sample & Hget & Hbin).
    exists sample. split; [exact Hget|]. split; [exact Hbin|].
    exact (proj2 (intensity_fits_byte sample)). }
  assert (Hshape : processSpectrum audioData spectrumHistory
                   = spectrumBufferOf audioData :: firstn 299 spectrumHistory)
    by (unfold processSpectrum; rewrite pushHistory_shape; reflexivity).
  split; [exact Hshape|].
  split.
  - intro Hlen. rewrite Hshape, firstn_all2 by lia. reflexivity.
  - intro Hr.
    apply (reachable_wellFormed
             (reachable_effect (Some audioData) true Hr)).
Qed.

Lemma spectrum_entries_and_order_witness :
  [Sample.minus_tenth; Sample.half] <> []
  /\ 130 < 256
  /\ length ([] : list Uint8Array.t) < 300
  /\ reachable []
  /\ nth 0 (spectrumBufferOf [Sample.minus_tenth; Sample.half]) 0%Z = 100%Z
  /\ nth 130 (spectrumBufferOf [Sample.minus_tenth; Sample.half]) 0%Z = 255%Z.
Proof.
  pose proof (@spectrum_entries_and_order [Sample.minus_tenth; Sample.half] [])
    as (_ & Hbin & _ & Hfront & Hall).
  assert (Hne : [Sample.minus_tenth; Sample.half] <> []) by discriminate.
  pose proof (Hfront ltac:(simpl; lia)) as _.
  pose proof (Hall reachable_initial) as _.
  split; [exact Hne|].
  split; [lia|].
  split; [simpl; lia|].
  split; [exact reachable_initial|].
  split.
  - destruct (Hbin Hne 0 ltac:(lia)) as (sample & Hget & -> & _).
    vm_compute in Hget. injection Hget as <-. vm_compute. reflexivity.
  - destruct (Hbin Hne 130 ltac:(lia)) as (sample & Hget & -> & _).
    vm_compute in Hget. injection Hget as <-. vm_compute. reflexivity.
Defined.

End SpectrumHistory.

(** ** The time-series history *)

Section TimeSeries.

Import TimeSeriesVisualizer.

(** The updater is "append, then keep the last 500". *)
Lemma pushPoint_shape (p : JS.number) (prev : list JS.number) :
  pushPoint p prev
  = skipn (length (prev ++ [p]) - 500) (prev ++ [p]).
Proof.
  unfold pushPoint.
  destruct (500 <? length (prev ++ [p])) eqn:E; [reflexivity|].
  apply Nat.ltb_ge in E.
  replace (length (prev ++ [p]) - 500) with 0 by lia.
  reflexivity.
Qed.

(** C9. After an accumulation step the series holds at most 500 points;
    it is the old series with the new point appended, minus the oldest
    points in excess of 500: the retained points are the most recent ones,
    in their order, the new point last, and there are exactly 500 of them
    as soon as the bound is reached. *)
Theorem time_series_keeps_last_500 (newDataPoint : JS.number)
  (timeSeriesData : list JS.number) :
  length (pushPoint newDataPoint timeSeriesData) <= 500
  /\ length (pushPoint newDataPoint timeSeriesData)
     = Nat.min 500 (S (length timeSeriesData))
  /\ pushPoint newDataPoint timeSeriesData
     = skipn (S (length timeSeriesData) - 500) timeSeriesData ++ [newDataPoint]
  /\ exists dropped,
       timeSeriesData ++ [newDataPoint]
       = dropped ++ pushPoint newDataPoint timeSeriesData
       /\ length dropped = S (length timeSeriesData) - 500.
Proof.
  rewrite pushPoint_shape.
  assert (Hlen : length (timeSeriesData ++ [newDataPoint])
                 = S (length timeSeriesData))
    by (rewrite length_app; simpl; lia).
  rewrite Hlen.
  split; [rewrite length_skipn; lia|].
  split; [rewrite length_skipn; lia|].
  split.
  - rewrite skipn_app.
    replace (S (length timeSeriesData) - 500 - length timeSeriesData) with 0
      by lia.
    reflexivity.
  - exists (firstn (S (length timeSeriesData) - 500)
                   (timeSeriesData ++ [newDataPoint])).
    split; [symmetry; apply firstn_skipn|].
    rewrite length_firstn. lia.
Qed.

End TimeSeries.

(** ** Acquiring the audio input *)

Section Acquisition.

Import AudioVisualizer.

Local Open Scope string_scope.

(** C6, as stated, fails: the handler is not reserved for a failure to
    acquire the stream.  With the stream granted, a browser call of the
    [.then] callback that throws is handled by the same [.catch]: it logs
    and resets although the promise was fulfilled. *)
Lemma handler_also_runs_after_fulfilment :
  ~ (forall (r : Settled) (s : State) (message err : string),
        In (console_error message err) (effectsOf (getUserMedia_settled r) s) ->
        exists e, r = rejected e).
Proof.
  intro H.
  destruct (H (fulfilled {| stream_id := 0 |}
                 (Some (createMediaStreamSource_throws "InvalidStateError")))
              initial "Error accessing audio device:" "InvalidStateError")
    as [e He].
  - left. reflexivity.
  - discriminate.
Qed.

(** C6, amended.  When the [getUserMedia] promise is rejected, whatever the
    error, the handler logs it with [console.error] and sets [isRecording]
    to false, touching nothing else.  The same handler receives what a
    browser call of the [.then] callback throws once the stream is granted,
    and does the same with it; the analyser is then neither connected nor
    stored.  These are the only cases in which anything is logged; a
    callback that completes connects and stores the analyser and leaves
    [isRecording] as it was; nothing thrown gets past the handler; and the
    effect that issues the request neither logs nor resets. *)
Theorem acquisition_failures_reach_one_handler (s : State) :
  (forall err,
      getUserMedia_settled (rejected err) s
      = (Normal tt, stateAfter (setIsRecording false) s,
         [console_error "Error accessing audio device:" err])
      /\ isRecording (stateAfter (getUserMedia_settled (rejected err)) s) = false)
  /\ (forall stream failure,
         getUserMedia_settled (fulfilled stream (Some failure)) s
         = (Normal tt, stateAfter (setIsRecording false) s,
            [console_error "Error accessing audio device:" (exceptionOf failure)])
         /\ analyser
              (stateAfter (getUserMedia_settled (fulfilled stream (Some failure))) s)
            = analyser s)
  /\ (forall r,
         (exists message err,
             In (console_error message err) (effectsOf (getUserMedia_settled r) s))
         <-> ((exists err, r = rejected err)
              \/ (exists stream failure, r = fulfilled stream (Some failure))))
  /\ (forall stream,
         getUserMedia_settled (fulfilled stream None) s
         = (Normal tt, stateAfter (setAnalyser (Some {| fftSize := 2048 |})) s,
            [connect stream {| fftSize := 2048 |}])
         /\ isRecording (stateAfter (getUserMedia_settled (fulfilled stream None)) s)
            = isRecording s)
  /\ (forall r, fst (fst (getUserMedia_settled r s)) = Normal tt)
  /\ (forall cl context,
         isRecording (stateAfter (acquisitionEffect cl context) s) = isRecording s
         /\ forall message err,
             ~ In (console_error message err)
                 (effectsOf (acquisitionEffect cl context) s)).
Proof.
  split; [intro err; split; reflexivity|].
  split; [intros stream [exn|exn|exn]; split; reflexivity|].
  split.
  - intros [stream [failure|]|err]; split.
    + intros _. right. exists stream, failure. reflexivity.
    + intros _. exists "Error accessing audio device:", (exceptionOf failure).
      destruct failure; left; reflexivity.
    + intros (message & err & Hin). simpl in Hin.
      destruct Hin as [Hin|[]]. discriminate.
    + intros [(err & Herr)|(stream' & failure & Hr)]; discriminate.
    + intros _. left. exists err. reflexivity.
    + intros _. exists "Error accessing audio device:", err.
      left. reflexivity.
  - split; [intro stream; split; reflexivity|].
    split; [intros [stream [[exn|exn|exn]|]|err]; reflexivity|].
    intros cl context. unfold acquisitionEffect.
    destruct (isRecording cl && isNull (audioContext cl)).
    + split; [reflexivity|].
      intros message err [Hin|[]]. discriminate.
    + split; [reflexivity|]. intros message err [].
Qed.

End Acquisition.

(** ** Switching tabs *)

Section Tabs.

Import AudioVisualizer.

Local Open Scope string_scope.

Lemma spectrumEffect_inactive (audioData : option Float32Array.t)
  (spectrumHistory : list Uint8Array.t) :
  SpectrographVisualizer.spectrumEffect audioData false spectrumHistory
  = spectrumHistory.
Proof. destruct audioData; reflexivity. Qed.

Lemma accumulateEffect_inactive (audioData : option Float32Array.t)
  (timeSeriesData : list JS.number) :
  TimeSeriesVisualizer.accumulateEffect audioData false timeSeriesData
  = timeSeriesData.
Proof. destruct audioData; reflexivity. Qed.

Lemma afterSwitch_same (H : Type) (forceMount active : bool)
  (effect : bool -> list H -> list H) (history : list H) :
  Dashboard.afterSwitch forceMount active active effect history = history.
Proof. destruct forceMount, active; reflexivity. Qed.

(** C8, as stated, fails for the accumulated histories, whether or not the
    tabs component keeps hidden content mounted.  If it does, entering the
    spectrograph tab with a buffer published runs the accumulation effect
    again and the history takes an entry; if it does not, leaving the
    spectrograph tab discards the history. *)
Lemma tab_switch_changes_a_history :
  ~ (exists forceMount, forall (d : Dashboard.State) (value : string),
        Dashboard.spectrumHistory (Dashboard.switchTab forceMount value d)
        = Dashboard.spectrumHistory d
        /\ Dashboard.timeSeriesData (Dashboard.switchTab forceMount value d)
           = Dashboard.timeSeriesData d).
Proof.
  intros [[|] H].
  - destruct (H Scene.onWaveform "spectrograph") as [Hs _].
    cbn [Dashboard.switchTab Dashboard.spectrumHistory Dashboard.visualizer
         Scene.onWaveform] in Hs.
    cbv [Dashboard.afterSwitch] in Hs. simpl in Hs.
    unfold SpectrographVisualizer.processSpectrum in Hs.
    rewrite pushHistory_shape in Hs. discriminate.
  - destruct (H Scene.onSpectrograph "waveform") as [Hs _].
    cbn [Dashboard.switchTab Dashboard.spectrumHistory Dashboard.visualizer
         Scene.onSpectrograph] in Hs.
    cbv [Dashboard.afterSwitch] in Hs. simpl in Hs.
    unfold Scene.oneFrame, SpectrographVisualizer.spectrumEffect,
      SpectrographVisualizer.processSpectrum in Hs.
    rewrite pushHistory_shape in Hs. discriminate.
Qed.

(** C8, amended.  Selecting a tab stores the selected value in
    [visualizationType] and changes no other state cell of the parent: the
    recording, the published buffer and the rest are as before.  Selecting
    the tab that is already selected changes nothing at all, and a history
    whose tab is neither left nor entered is as before.  The visualizer
    whose tab is entered runs its accumulation effect again: on the history
    it had if hidden tab content stays mounted, on the empty one if it is
    mounted anew.  The visualizer whose tab is left keeps its history in
    the first case and loses it in the second. *)
Theorem tab_switch_keeps_parent_restarts_children (forceMount : bool)
  (d : Dashboard.State) (value : string) :
  let d' := Dashboard.switchTab forceMount value d in
  let was := visualizationType (Dashboard.visualizer d) in
  (visualizationType (Dashboard.visualizer d') = value
   /\ recordedData (Dashboard.visualizer d') = recordedData (Dashboard.visualizer d)
   /\ audioData (Dashboard.visualizer d') = audioData (Dashboard.visualizer d)
   /\ isRecording (Dashboard.visualizer d') = isRecording (Dashboard.visualizer d)
   /\ audioContext (Dashboard.visualizer d') = audioContext (Dashboard.visualizer d)
   /\ analyser (Dashboard.visualizer d') = analyser (Dashboard.visualizer d)
   /\ timeScale (Dashboard.visualizer d') = timeScale (Dashboard.visualizer d)
   /\ gain (Dashboard.visualizer d') = gain (Dashboard.visualizer d)
   /\ showSettings (Dashboard.visualizer d') = showSettings (Dashboard.visualizer d)
   /\ isPlaying (Dashboard.visualizer d') = isPlaying (Dashboard.visualizer d)
   /\ playbackIndex (Dashboard.visualizer d') = playbackIndex (Dashboard.visualizer d))
  /\ (was = value -> d' = d)
  /\ (was <> "spectrograph" -> value <> "spectrograph" ->
      Dashboard.spectrumHistory d' = Dashboard.spectrumHistory d)
  /\ (was <> "timeSeries" -> value <> "timeSeries" ->
      Dashboard.timeSeriesData d' = Dashboard.timeSeriesData d)
  /\ (was <> "spectrograph" -> value = "spectrograph" ->
      Dashboard.spectrumHistory d'
      = SpectrographVisualizer.spectrumEffect
          (audioData (Dashboard.visualizer d)) true
          (if forceMount then Dashboard.spectrumHistory d else []))
  /\ (was <> "timeSeries" -> value = "timeSeries" ->
      Dashboard.timeSeriesData d'
      = TimeSeriesVisualizer.accumulateEffect
          (audioData (Dashboard.visualizer d)) true
          (if forceMount then Dashboard.timeSeriesData d else []))
  /\ (was = "spectrograph" -> value <> "spectrograph" ->
      Dashboard.spectrumHistory d'
      = if forceMount then Dashboard.spectrumHistory d else [])
  /\ (was = "timeSeries" -> value <> "timeSeries" ->
      Dashboard.timeSeriesData d'
      = if forceMount then Dashboard.timeSeriesData d else []).
Proof.
  intros d' was.
  split; [unfold d'; simpl; repeat split; reflexivity|].
  split.
  { intro Hsame. unfold d', was in *. unfold Dashboard.switchTab.
    cbn [stateAfter setVisualizationType snd fst visualizationType audioData].
    rewrite <- Hsame. rewrite !afterSwitch_same.
    destruct d as [v sh ts]. destruct v. reflexivity. }
  unfold d', was, Dashboard.switchTab.
  cbn [stateAfter setVisualizationType snd fst visualizationType audioData
       Dashboard.spectrumHistory Dashboard.timeSeriesData Dashboard.visualizer].
  repeat split; intros Hwas Hvalue.
  - apply String.eqb_neq in Hwas, Hvalue. rewrite Hwas, Hvalue.
    destruct forceMount; reflexivity.
  - apply String.eqb_neq in Hwas, Hvalue. rewrite Hwas, Hvalue.
    destruct forceMount; reflexivity.
  - apply String.eqb_neq in Hwas. apply String.eqb_eq in Hvalue.
    rewrite Hwas, Hvalue. destruct forceMount; reflexivity.
  - apply String.eqb_neq in Hwas. apply String.eqb_eq in Hvalue.
    rewrite Hwas, Hvalue. destruct forceMount; reflexivity.
  - apply String.eqb_eq in Hwas. apply String.eqb_neq in Hvalue.
    rewrite Hwas, Hvalue. destruct forceMount; [|reflexivity].
    cbn [Dashboard.afterSwitch Bool.eqb]. apply spectrumEffect_inactive.
  - apply String.eqb_eq in Hwas. apply String.eqb_neq in Hvalue.
    rewrite Hwas, Hvalue. destruct forceMount; [|reflexivity].
    cbn [Dashboard.afterSwitch Bool.eqb]. apply accumulateEffect_inactive.
Qed.

End Tabs.

(** * Further properties of the code *)

(** ** The name of the saved file *)

Section FileName.

Import AudioVisualizer.

Lemma replaceColonDot_length (s : string) :
  String.length (replaceColonDot s) = String.length s.
Proof. induction s as [|c rest IH]; simpl; congruence. Qed.

Lemma replaceColonDot_get (s : string) (n : nat) :
  String.get n (replaceColonDot s)
  = option_map (fun c => if (Ascii.eqb c ":" || Ascii.eqb c ".")%char
                         then "-"%char else c)
      (String.get n s).
Proof.
  revert n; induction s as [|c rest IH]; intros [|n]; simpl; auto.
Qed.

Lemma prefix_length (s : string) (n : nat) :
  String.length (substring 0 n s) = Nat.min n (String.length s).
Proof.
  revert n; induction s as [|c rest IH]; intros [|n]; simpl; auto.
Qed.

Lemma prefix_get (s : string) (n i : nat) :
  String.get i (substring 0 n s)
  = if (i <? n)%nat then String.get i s else None.
Proof.
  revert n i; induction s as [|c rest IH]; intros [|n] [|i]; simpl; auto;
    try (destruct (_ <? _)%nat; reflexivity).
  rewrite IH. reflexivity.
Qed.

(** X1. The time stamp put into the file name keeps the first 19
    characters of the ISO date, with every colon and dot among them turned
    into a dash: it never contains a colon or a dot, whatever the clock
    returned. *)
Theorem timestamp_has_no_colon_or_dot (iso : string) :
  String.length (timestamp iso) = Nat.min 19 (String.length iso)
  /\ forall n c,
       String.get n (timestamp iso) = Some c ->
       c <> ":"%char /\ c <> "."%char
       /\ exists c0,
            String.get n iso = Some c0
            /\ (c = c0 \/ (c = "-"%char /\ (c0 = ":"%char \/ c0 = "."%char))).
Proof.
  unfold timestamp. split.
  - rewrite prefix_length, replaceColonDot_length. reflexivity.
  - intros n c. rewrite prefix_get, replaceColonDot_get.
    destruct (n <? 19)%nat; [|discriminate].
    destruct (String.get n iso) as [c0|]; [|discriminate].
    simpl. intro H. injection H as <-.
    destruct (Ascii.eqb c0 ":") eqn:Ec; simpl.
    + apply Ascii.eqb_eq in Ec. subst c0.
      repeat split; try discriminate.
      exists ":"%char. split; [reflexivity|]. right. auto.
    + destruct (Ascii.eqb c0 ".") eqn:Ed.
      * apply Ascii.eqb_eq in Ed. subst c0.
        repeat split; try discriminate.
        exists "."%char. split; [reflexivity|]. right. auto.
      * apply Ascii.eqb_neq in Ec. apply Ascii.eqb_neq in Ed.
        repeat split; try assumption.
        exists c0. split; [reflexivity|]. left. reflexivity.
Qed.

Example timestamp_of_iso_date :
  timestamp "2024-01-02T03:04:05.678Z" = "2024-01-02T03-04-05"%string.
Proof. reflexivity. Qed.

End FileName.

(** ** Which history an effect pass feeds *)

Section ActiveTab.

Import AudioVisualizer.

(** X2. The accumulation effects of the children only run for the selected
    tab: a pass of the effects leaves the spectrum history untouched unless
    the spectrograph tab is selected, the time series untouched unless the
    time-series tab is selected, never changes both, changes neither while
    no buffer is published, and never touches the parent's state. *)
Theorem histories_accumulate_only_on_their_tab (d : Dashboard.State) :
  let d' := Dashboard.childEffects d in
  Dashboard.visualizer d' = Dashboard.visualizer d
  /\ (visualizationType (Dashboard.visualizer d) <> "spectrograph"%string ->
      Dashboard.spectrumHistory d' = Dashboard.spectrumHistory d)
  /\ (visualizationType (Dashboard.visualizer d) <> "timeSeries"%string ->
      Dashboard.timeSeriesData d' = Dashboard.timeSeriesData d)
  /\ (Dashboard.spectrumHistory d' = Dashboard.spectrumHistory d
      \/ Dashboard.timeSeriesData d' = Dashboard.timeSeriesData d)
  /\ (audioData (Dashboard.visualizer d) = None ->
      Dashboard.spectrumHistory d' = Dashboard.spectrumHistory d
      /\ Dashboard.timeSeriesData d' = Dashboard.timeSeriesData d).
Proof.
  unfold Dashboard.childEffects. cbn [Dashboard.visualizer
    Dashboard.spectrumHistory Dashboard.timeSeriesData].
  unfold SpectrographVisualizer.spectrumEffect,
    TimeSeriesVisualizer.accumulateEffect.
  split; [reflexivity|].
  destruct (audioData (Dashboard.visualizer d)) as [data|].
  2:{ repeat split; auto. }
  destruct (String.eqb_spec (visualizationType (Dashboard.visualizer d))
              "spectrograph") as [Es|Es];
    destruct (String.eqb_spec (visualizationType (Dashboard.visualizer d))
                "timeSeries") as [Et|Et].
  - rewrite Es in Et. discriminate.
  - split; [congruence|]. split; [reflexivity|]. split; [right; reflexivity|].
    discriminate.
  - split; [reflexivity|]. split; [congruence|]. split; [left; reflexivity|].
    discriminate.
  - split; [reflexivity|]. split; [reflexivity|]. split; [left; reflexivity|].
    discriminate.
Qed.

End ActiveTab.

(** ** The histories as windows over the frames *)

Section Windows.

Lemma firstn_firstn_le (A : Type) (l : list A) (n m : nat) :
  n <= m -> firstn n (firstn m l) = firstn n l.
Proof.
  intro H. rewrite firstn_firstn. f_equal. lia.
Qed.

(** X3. Fed one buffer per frame from an empty history, the spectrograph
    holds the vectors of the most recent frames, newest first, and at most
    300 of them: the history is the first 300 entries of the reversed list
    of all vectors. *)
Theorem spectrum_history_is_window_of_recent_frames
  (frames : list Float32Array.t) :
  fold_left (fun history audioData =>
               SpectrographVisualizer.processSpectrum audioData history)
    frames []
  = firstn 300 (rev (List.map SpectrographVisualizer.spectrumBufferOf frames)).
Proof.
  induction frames as [|audioData rest IH] using rev_ind; [reflexivity|].
  rewrite fold_left_app, map_app, rev_app_distr. cbn [fold_left List.map rev app].
  rewrite IH. unfold SpectrographVisualizer.processSpectrum.
  rewrite pushHistory_shape.
  change (SpectrographVisualizer.historyLengthRef_current - 1) with 299.
  rewrite firstn_firstn_le by lia.
  change 300 with (S 299). rewrite firstn_cons. reflexivity.
Qed.

(** X4. Fed one buffer per frame from an empty series, the time-series
    component holds the data points of the most recent frames in order of
    arrival, and at most 500 of them: the series is the list of all data
    points without its oldest [n - 500] entries. *)
Theorem time_series_is_window_of_recent_frames
  (frames : list Float32Array.t) :
  fold_left (fun series audioData =>
               TimeSeriesVisualizer.pushPoint
                 (TimeSeriesVisualizer.newDataPoint audioData) series)
    frames []
  = skipn (length frames - 500)
      (List.map TimeSeriesVisualizer.newDataPoint frames).
Proof.
  induction frames as [|audioData rest IH] using rev_ind; [reflexivity|].
  rewrite fold_left_app, map_app. cbn [fold_left List.map].
  rewrite IH, pushPoint_shape.
  rewrite !length_app, length_skipn, length_map. cbn [length].
  set (points := List.map TimeSeriesVisualizer.newDataPoint rest).
  assert (Hlen : length points = length rest) by apply length_map.
  destruct (Nat.le_gt_cases (length rest) 500) as [Hle|Hgt].
  - replace (length rest - 500) with 0 by lia. cbn [skipn].
    f_equal. lia.
  - replace (length rest - (length rest - 500) + 1 - 500) with 1 by lia.
    replace (length rest + 1 - 500) with (S (length rest - 500)) by lia.
    rewrite !skipn_app.
    replace (1 - length (skipn (length rest - 500) points)) with 0
      by (rewrite length_skipn; lia).
    replace (S (length rest - 500) - length points) with 0 by lia.
    rewrite skipn_skipn. reflexivity.
Qed.

End Windows.

(** ** What the spectrum vector depends on *)

Section Magnitude.

Import SpectrographVisualizer.

Lemma binary_round_aux_abs (prec emax : Z) (sx sy : bool) (mx ex : Z)
  (lx : location) :
  SFabs (binary_round_aux prec emax sx mx ex lx)
  = SFabs (binary_round_aux prec emax sy mx ex lx).
Proof.
  unfold binary_round_aux.
  destruct (shr_fexp prec emax mx ex lx) as [r1 e1].
  destruct (shr_fexp prec emax _ e1 loc_Exact) as [r2 e2].
  destruct (shr_m r2); [reflexivity| |reflexivity].
  destruct (e2 <=? emax - prec)%Z; reflexivity.
Qed.

Lemma promote_opp_abs (x : JS.number) :
  JS.Math_abs (JS.promote (SFopp x)) = JS.Math_abs (JS.promote x).
Proof.
  destruct x as [s|s| |s m e]; try reflexivity.
  unfold JS.Math_abs, JS.promote, SFopp, binary_round.
  destruct (shl_align m e _) as [mz ez].
  apply binary_round_aux_abs.
Qed.

Lemma get_opp (audioData : Float32Array.t) (buf : Uint8Array.t) (i : nat) :
  forall idx,
    match Float32Array.get (List.map SFopp audioData) idx with
    | Some sample => Uint8Array.store buf i (intensityOf sample)
    | None => buf
    end
    = match Float32Array.get audioData idx with
      | Some sample => Uint8Array.store buf i (intensityOf sample)
      | None => buf
      end.
Proof.
  unfold Float32Array.get.
  induction audioData as [|v rest IH]; intros [|idx]; cbn; auto.
  unfold intensityOf. rewrite promote_opp_abs. reflexivity.
Qed.

Lemma fillBin_opp (audioData : Float32Array.t) (buf : Uint8Array.t) (i : nat) :
  fillBin (List.map SFopp audioData) buf i = fillBin audioData buf i.
Proof.
  unfold fillBin. rewrite length_map, get_opp. reflexivity.
Qed.

(** X5. The vector depends only on the magnitudes of the samples: the
    buffer with every sample negated gives the same 256 bytes.  A NaN
    sample is stored as 0, a zero sample as 0 and an infinite one as 255. *)
Theorem spectrum_ignores_sign (audioData : Float32Array.t) :
  spectrumBufferOf (List.map SFopp audioData) = spectrumBufferOf audioData
  /\ JS.ToUint8 (intensityOf (JS.promote S754_nan)) = 0%Z
  /\ (forall s, JS.ToUint8 (intensityOf (JS.promote (S754_zero s))) = 0%Z)
  /\ (forall s, JS.ToUint8 (intensityOf (JS.promote (S754_infinity s))) = 255%Z).
Proof.
  split.
  - unfold spectrumBufferOf.
    generalize (Uint8Array.create 256). generalize (seq 0 256).
    intro l; induction l as [|i rest IH]; intro buf; [reflexivity|].
    cbn [fold_left]. rewrite fillBin_opp. apply IH.
  - split; [vm_compute; reflexivity|].
    split; intros [|]; vm_compute; reflexivity.
Qed.

End Magnitude.

(** ** Recording after a stop and after a failed acquisition *)

Section RecorderFacts.

Import AudioVisualizer Recorder.

Lemma updateData_isRecording (cl s : State) (dataArray : Float32Array.t) :
  isRecording (stateAfter (updateData cl dataArray) s) = isRecording s.
Proof.
  unfold updateData.
  destruct (negb (isRecording cl) || isNull (analyser cl)); reflexivity.
Qed.

Lemma ticks_isRecording (calls : list (State * Float32Array.t)) :
  forall s, isRecording (stateAfter (ticks calls) s) = isRecording s.
Proof.
  induction calls as [|[cl dataArray] rest IH]; intro s; [reflexivity|].
  cbn [ticks]. unfold stateAfter, bind.
  pose proof (updateData_completes cl s dataArray) as Hc.
  pose proof (updateData_isRecording cl s dataArray) as Hr.
  unfold stateAfter in Hr.
  destruct (updateData cl dataArray s) as [[c s1] l1]. simpl in Hc, Hr.
  subst c. specialize (IH s1). unfold stateAfter in IH.
  destruct (ticks rest s1) as [[c2 s2] l2]. simpl in IH |- *.
  congruence.
Qed.

Lemma captured_of_running_loop (calls : list (State * Float32Array.t)) :
  Forall (fun call => isRecording (fst call) = true
                      /\ analyser (fst call) <> None) calls ->
  length (flat_map captured calls) = length calls.
Proof.
  induction 1 as [|[cl dataArray] rest [Hrec Han] Hrest IH]; [reflexivity|].
  cbn [flat_map]. rewrite length_app, IH. simpl in Hrec, Han.
  unfold captured. rewrite Hrec.
  destruct (analyser cl); [reflexivity|congruence].
Qed.

(** X6. Stopping does not stop a loop that is already running: its
    callback tests the [isRecording] of the render that started it, not the
    current one.  After [handleStopRecording], every further tick of such a
    loop still appends a buffer to the recording, while [isRecording] stays
    false. *)
Theorem recording_grows_after_stop (cl s : State)
  (calls : list (State * Float32Array.t)) :
  Forall (fun call => isRecording (fst call) = true
                      /\ analyser (fst call) <> None) calls ->
  let stopped := stateAfter (handleStopRecording cl) s in
  let later := stateAfter (ticks calls) stopped in
  isRecording stopped = false
  /\ isRecording later = false
  /\ recordedData later = recordedData s ++ flat_map captured calls
  /\ length (recordedData later) = length (recordedData s) + length calls.
Proof.
  intros Hrun stopped later.
  split; [reflexivity|].
  split; [unfold later; rewrite ticks_isRecording; reflexivity|].
  assert (H : recordedData later = recordedData s ++ flat_map captured calls)
    by (unfold later; rewrite ticks_recorded; reflexivity).
  split; [exact H|].
  rewrite H, length_app, (captured_of_running_loop Hrun). reflexivity.
Qed.

Lemma recording_grows_after_stop_witness :
  Forall (fun call => isRecording (fst call) = true
                      /\ analyser (fst call) <> None) Scene.twoTicks
  /\ length (recordedData
               (stateAfter (ticks Scene.twoTicks)
                  (stateAfter (handleStopRecording Sample.twoBuffers)
                     Sample.twoBuffers)))
     = 4.
Proof.
  assert (Hrun : Forall (fun call => isRecording (fst call) = true
                                     /\ analyser (fst call) <> None)
                   Scene.twoTicks)
    by (repeat constructor; discriminate).
  split; [exact Hrun|].
  exact (proj2 (proj2 (proj2 (@recording_grows_after_stop Sample.twoBuffers
                                Sample.twoBuffers Scene.twoTicks Hrun)))).
Defined.

(** X7. A failed acquisition is never retried.  The effect stores the
    [AudioContext] before it asks for the microphone and asks only while no
    context is stored; once the request has been rejected, pressing Start
    again sets [isRecording] but neither asks for the microphone again nor
    starts a sampling loop, because the analyser is still missing. *)
Theorem failed_acquisition_is_never_retried (s : State)
  (context context' : AudioContext) (err : string)
  (dataArray : Float32Array.t) :
  isRecording s = true -> audioContext s = None -> analyser s = None ->
  let requested := stateAfter (acquisitionEffect s context) s in
  let failed := stateAfter (getUserMedia_settled (rejected err)) requested in
  let restarted := stateAfter handleStartRecording failed in
  effectsOf (acquisitionEffect s context) s = [getUserMedia true false]
  /\ isRecording failed = false
  /\ isRecording restarted = true
  /\ audioContext restarted = Some context
  /\ analyser restarted = None
  /\ acquisitionEffect restarted context' restarted = (Normal tt, restarted, [])
  /\ samplingEffect restarted dataArray restarted = (Normal tt, restarted, []).
Proof.
  intros Hrec Hctx Han requested failed restarted.
  assert (Hreq : acquisitionEffect s context
                 = bind (setAudioContext (Some context))
                     (fun _ => emit (getUserMedia true false))).
  { unfold acquisitionEffect. rewrite Hrec, Hctx. reflexivity. }
  unfold restarted, failed, requested, effectsOf.
  rewrite Hreq.
  split; [reflexivity|]. split; [reflexivity|]. split; [reflexivity|].
  split; [reflexivity|]. split; [exact Han|].
  split.
  - reflexivity.
  - unfold samplingEffect. cbn. rewrite Han. reflexivity.
Qed.

Lemma failed_acquisition_is_never_retried_witness :
  let restarted :=
    stateAfter handleStartRecording
      (stateAfter (getUserMedia_settled (rejected "NotAllowedError"))
         (stateAfter
            (acquisitionEffect (stateAfter handleStartRecording initial)
               {| context_id := 1 |})
            (stateAfter handleStartRecording initial))) in
  acquisitionEffect restarted {| context_id := 2 |} restarted
  = (Normal tt, restarted, []).
Proof.
  pose proof (@failed_acquisition_is_never_retried
                (stateAfter handleStartRecording initial)
                {| context_id := 1 |} {| context_id := 2 |} "NotAllowedError" []
                eq_refl eq_refl eq_refl) as H.
  cbv zeta in H. cbv zeta.
  exact (proj1 (proj2 (proj2 (proj2 (proj2 (proj2 H)))))).
Defined.

End RecorderFacts.

(** ** Playback *)

Section PlaybackFacts.

Import AudioVisualizer Recorder.

(** A frame after a frame: the buffer is published again and the index
    has advanced once more. *)
Lemma frames_state_step (s : State) (buf : Float32Array.t) (n : nat) :
  stateAfter (setPlaybackIndex_with (fun prev => prev + n))
    (stateAfter (setAudioData (Some buf))
       (stateAfter (setPlaybackIndex_with (fun prev => prev + 1))
          (stateAfter (setAudioData (Some buf)) s)))
  = stateAfter (setPlaybackIndex_with (fun prev => prev + S n))
      (stateAfter (setAudioData (Some buf)) s).
Proof.
  destruct s. unfold stateAfter. cbn. f_equal. lia.
Qed.

Lemma last_cons_default (A : Type) (a d : A) (l : list A) :
  last (a :: l) d = last l a.
Proof.
  revert a d; induction l as [|b rest IH]; intros a d; [reflexivity|].
  change (last (a :: b :: rest) d) with (last (b :: rest) d).
  rewrite (IH b d), (IH b a). reflexivity.
Qed.

(** One frame of a playback whose render points inside the recording. *)
Lemma playNextFrame_run (cl : State) (buf : Float32Array.t) (handle : nat)
  (w : State * Ref) :
  nth_error (recordedData cl) (playbackIndex cl) = Some buf ->
  playNextFrame cl handle w
  = (tt,
     (stateAfter (setPlaybackIndex_with (fun prev => prev + 1))
        (stateAfter (setAudioData (Some buf)) (fst w)),
      Some handle),
     [component (requestAnimationFrame "playNextFrame")]).
Proof.
  intro Hbuf. unfold playNextFrame.
  assert (Hlt : playbackIndex cl < length (recordedData cl))
    by (apply nth_error_Some; congruence).
  replace (playbackIndex cl <? length (recordedData cl)) with true
    by (symmetry; apply Nat.ltb_lt; exact Hlt).
  rewrite Hbuf. destruct w as [s r]. reflexivity.
Qed.

Lemma playFrames_run (cl : State) (buf : Float32Array.t) :
  nth_error (recordedData cl) (playbackIndex cl) = Some buf ->
  forall (handles : list nat) (handle : nat) (w : State * Ref),
    playFrames cl (handle :: handles) w
    = (tt,
       (stateAfter
          (setPlaybackIndex_with (fun prev => prev + S (length handles)))
          (stateAfter (setAudioData (Some buf)) (fst w)),
        Some (last handles handle)),
       repeat (component (requestAnimationFrame "playNextFrame"))
         (S (length handles))).
Proof.
  intro Hbuf. induction handles as [|h rest IH]; intros handle w.
  - cbn [playFrames]. unfold pbind.
    rewrite (@playNextFrame_run cl buf handle w Hbuf). reflexivity.
  - change (playFrames cl (handle :: h :: rest))
      with (pbind (playNextFrame cl handle)
              (fun _ => playFrames cl (h :: rest))).
    unfold pbind at 1.
    rewrite (@playNextFrame_run cl buf handle w Hbuf), IH.
    cbn [fst snd length].
    rewrite frames_state_step, last_cons_default. reflexivity.
Qed.

(** X8. Playback shows one buffer only.  The frame callback reads
    [playbackIndex] and [recordedData] of the render in which Play was
    pressed, so every frame publishes the same buffer
    [recordedData[playbackIndex]] of that render; the [playbackIndex] state
    counts the frames, the callback reschedules itself every time and the
    branch that stops the playback is never taken. *)
Theorem playback_repeats_one_buffer (cl s : State) (r : Ref)
  (buf : Float32Array.t) (first handle : nat) (handles : list nat) :
  nth_error (recordedData cl) (playbackIndex cl) = Some buf ->
  let run := pbind (handlePlayback cl first)
               (fun _ => playFrames cl (handle :: handles)) in
  audioData (fst (worldAfter run (s, r))) = Some buf
  /\ playbackIndex (fst (worldAfter run (s, r))) = S (length handles)
  /\ isPlaying (fst (worldAfter run (s, r))) = true
  /\ recordedData (fst (worldAfter run (s, r))) = recordedData s
  /\ snd (worldAfter run (s, r)) = Some (last handles handle)
  /\ actionsOf run (s, r)
     = [component (requestAnimationFrame "playNextFrame");
        component (toast "Playback Started" "Playing back recorded data")]
       ++ repeat (component (requestAnimationFrame "playNextFrame"))
            (S (length handles)).
Proof.
  intros Hbuf run.
  assert (Hne : (length (recordedData cl) =? 0) = false).
  { apply Nat.eqb_neq. intro H0.
    assert (playbackIndex cl < length (recordedData cl))
      by (apply nth_error_Some; congruence). lia. }
  unfold run, worldAfter, actionsOf, pbind at 1.
  unfold handlePlayback. rewrite Hne.
  cbn [pbind lift act setRef fst snd setIsPlaying setPlaybackIndex
       setPlaybackIndex_with List.map app].
  rewrite (@playFrames_run cl buf Hbuf).
  cbn [fst snd]. destruct s. unfold stateAfter. cbn.
  repeat split; reflexivity.
Qed.

Lemma playback_repeats_one_buffer_witness :
  nth_error (recordedData Sample.twoBuffers) (playbackIndex Sample.twoBuffers)
  = Some [Sample.half]
  /\ audioData
       (fst (worldAfter
               (pbind (handlePlayback Sample.twoBuffers 1)
                  (fun _ => playFrames Sample.twoBuffers [2; 3; 4]))
               (Sample.twoBuffers, None)))
     = Some [Sample.half].
Proof.
  split; [reflexivity|].
  exact (proj1 (@playback_repeats_one_buffer Sample.twoBuffers Sample.twoBuffers
                  None [Sample.half] 1 2 [3; 4] eq_refl)).
Defined.

(** X9. Stopping a playback cancels exactly the frame that is pending (the
    one scheduled last), clears the ref and returns [isPlaying] and
    [playbackIndex] to their idle values; the published buffer and the
    recording stay as they are.  Unmounting during a playback cancels the
    same frame; after a stop it has nothing left to cancel. *)
Theorem stop_cancels_the_pending_frame (cl s : State) (r : Ref)
  (first : nat) (handles : list nat) :
  playbackIndex cl < length (recordedData cl) ->
  last handles first <> 0 ->
  let playing := worldAfter
                   (pbind (handlePlayback cl first)
                      (fun _ => playFrames cl handles)) (s, r) in
  snd playing = Some (last handles first)
  /\ actionsOf handleStopPlayback playing
     = [cancelAnimationFrame (last handles first);
        component (toast "Playback Stopped" "Playback has been stopped")]
  /\ snd (worldAfter handleStopPlayback playing) = None
  /\ isPlaying (fst (worldAfter handleStopPlayback playing)) = false
  /\ playbackIndex (fst (worldAfter handleStopPlayback playing)) = 0
  /\ audioData (fst (worldAfter handleStopPlayback playing))
     = audioData (fst playing)
  /\ recordedData (fst (worldAfter handleStopPlayback playing)) = recordedData s
  /\ actionsOf unmountCleanup playing
     = [cancelAnimationFrame (last handles first)]
  /\ actionsOf unmountCleanup (worldAfter handleStopPlayback playing) = [].
Proof.
  intros Hidx Hnz playing.
  assert (Href : snd playing = Some (last handles first)
                 /\ recordedData (fst playing) = recordedData s).
  { unfold playing, worldAfter, pbind at 1, handlePlayback.
    replace (length (recordedData cl) =? 0) with false
      by (symmetry; apply Nat.eqb_neq; lia).
    cbn [pbind lift act setRef fst snd setIsPlaying setPlaybackIndex
         setPlaybackIndex_with List.map app].
    destruct handles as [|handle rest].
    - destruct s; split; reflexivity.
    - destruct (nth_error (recordedData cl) (playbackIndex cl)) as [buf|] eqn:Hbuf.
      + rewrite (@playFrames_run cl buf Hbuf), last_cons_default.
        destruct s; split; reflexivity.
      + apply nth_error_None in Hbuf. lia. }
  destruct Href as [Href Hrec].
  split; [exact Href|].
  destruct playing as [sp rp]. cbn [snd fst] in Href, Hrec |- *. subst rp.
  destruct (last handles first) as [|k] eqn:El; [congruence|].
  unfold actionsOf, worldAfter, handleStopPlayback, unmountCleanup.
  destruct sp. cbn in Hrec |- *. subst.
  repeat split; reflexivity.
Qed.

Lemma stop_cancels_the_pending_frame_witness :
  playbackIndex Sample.twoBuffers < length (recordedData Sample.twoBuffers)
  /\ last [2; 3; 4] 1 <> 0
  /\ actionsOf handleStopPlayback
       (worldAfter
          (pbind (handlePlayback Sample.twoBuffers 1)
             (fun _ => playFrames Sample.twoBuffers [2; 3; 4]))
          (Sample.twoBuffers, None))
     = [cancelAnimationFrame 4;
        component (toast "Playback Stopped" "Playback has been stopped")].
Proof.
  split; [simpl; lia|]. split; [discriminate|].
  exact (proj1 (proj2 (@stop_cancels_the_pending_frame
                         Sample.twoBuffers Sample.twoBuffers None 1 [2; 3; 4]
                         ltac:(simpl; lia)
                         ltac:(discriminate)))).
Defined.

End PlaybackFacts.

(** ** The spectrograph picture *)

Section SpectrographPicture.

Import Canvas SpectrographDrawing.

Local Open Scope Z_scope.

(** X10. Every byte is painted with a valid colour: the three channels
    computed for an intensity between 0 and 255 lie between 0 and 255. *)
Theorem colorOf_channels_in_range (intensity : Z) :
  0 <= intensity <= 255 ->
  let '(r, g, b) := colorOf intensity in
  0 <= r <= 255 /\ 0 <= g <= 255 /\ 0 <= b <= 255.
Proof.
  intro H. unfold colorOf.
  repeat match goal with
         | |- context [?a <? ?b] => destruct (Z.ltb_spec a b)
         end; lia.
Qed.

Lemma colorOf_channels_in_range_witness :
  (0 <= 119 <= 255)
  /\ (let '(r, g, b) := colorOf 119 in
      0 <= r <= 255 /\ 0 <= g <= 255 /\ 0 <= b <= 255).
Proof.
  split; [lia|].
  apply (@colorOf_channels_in_range 119). lia.
Defined.

(** X11. The colour ramp tells intensities apart up to 199 and saturates
    from 200 on: two different intensities below 200 never get the same
    colour, none of them is white, and every intensity of 200 or more is
    white. *)
Theorem colorOf_distinct_below_saturation (i j : Z) :
  (0 <= i < 200 -> 0 <= j < 200 -> colorOf i = colorOf j -> i = j)
  /\ (0 <= i < 200 -> colorOf i <> (255, 255, 255))
  /\ (200 <= i -> colorOf i = (255, 255, 255)).
Proof.
  unfold colorOf.
  repeat match goal with
         | |- context [?a <? ?b] => destruct (Z.ltb_spec a b)
         end;
    (split; [intros Hi Hj Heq; try lia;
             apply pair_equal_spec in Heq; destruct Heq as [Heq Hb];
             apply pair_equal_spec in Heq; destruct Heq as [Hr Hg]; lia|]);
    (split; [intros Hi Heq; try lia;
             apply pair_equal_spec in Heq; destruct Heq as [Heq Hb];
             apply pair_equal_spec in Heq; destruct Heq as [Hr Hg]; lia|]);
    intro Hi; try lia; reflexivity.
Qed.

Local Close Scope Z_scope.

Lemma count_app (p : Op -> bool) (l1 l2 : list Op) :
  count p (l1 ++ l2) = count p l1 + count p l2.
Proof. unfold count. rewrite filter_app, length_app. reflexivity. Qed.

Lemma drawBins_counts (bins : list Z) :
  forall freqIndex len posX y sliceWidth height,
    count isFillRect (drawBins bins freqIndex len posX y sliceWidth height)
    = length bins
    /\ count isFillText (drawBins bins freqIndex len posX y sliceWidth height)
       = 0.
Proof.
  induction bins as [|b rest IH]; intros; [split; reflexivity|].
  cbn [drawBins]. rewrite !count_app.
  destruct (IH (S freqIndex) len posX y sliceWidth height) as [-> ->].
  split; reflexivity.
Qed.

Lemma drawSlices_counts (slices : list Uint8Array.t) :
  forall timeIndex x y sliceWidth height,
    count isFillRect (drawSlices slices timeIndex x y sliceWidth height)
    = length (concat slices)
    /\ count isFillText (drawSlices slices timeIndex x y sliceWidth height)
       = 0.
Proof.
  induction slices as [|spectrum rest IH]; intros; [split; reflexivity|].
  cbn [drawSlices concat]. rewrite !count_app, length_app.
  destruct (IH (S timeIndex) x y sliceWidth height) as [-> ->].
  destruct (drawBins_counts spectrum 0 (length spectrum)
              (JS.add x (JS.mul (JS.of_nat timeIndex) sliceWidth))
              y sliceWidth height) as [-> ->].
  split; reflexivity.
Qed.

Lemma drawSpectrograph_counts (history : list Uint8Array.t)
  (x y width height : JS.number) :
  count isFillRect (drawSpectrograph history x y width height)
  = length (concat history)
  /\ count isFillText (drawSpectrograph history x y width height)
     = match history with [] => 1 | _ => 0 end.
Proof.
  unfold drawSpectrograph. destruct history as [|spectrum rest].
  - split; reflexivity.
  - cbn [length Nat.eqb]. apply drawSlices_counts.
Qed.

Lemma drawFrequencyScale_counts (x y width height : JS.number) :
  count isFillRect (drawFrequencyScale x y width height) = 0
  /\ count isFillText (drawFrequencyScale x y width height) = 5.
Proof. split; reflexivity. Qed.

Lemma wellFormed_cells (history : list Uint8Array.t) :
  Forall SpectrographVisualizer.wellFormed history ->
  length (concat history) = 256 * length history.
Proof.
  induction 1 as [|spectrum rest [Hlen _] Hrest IH]; [reflexivity|].
  cbn [concat length]. rewrite length_app, Hlen, IH. lia.
Qed.

Lemma Forall_firstn_of (A : Type) (P : A -> Prop) (n : nat) (l : list A) :
  Forall P l -> Forall P (firstn n l).
Proof.
  intro H. apply Forall_forall. intros a Ha.
  rewrite Forall_forall in H. apply H.
  rewrite <- (firstn_skipn n l). apply in_or_app. left. exact Ha.
Qed.

(** X12. On a mounted canvas with a context, the active spectrograph
    paints one cell per bin of every vector it shows: the upper pane shows
    the 60 newest vectors at most, the lower pane all of them, so a history
    of [n] vectors gives [256 * (min 60 n + n)] cells.  An empty history
    gives no cell and a placeholder text in each pane.  An inactive,
    unmounted or context-less canvas is not touched at all. *)
Theorem spectrograph_paints_one_cell_per_bin (canvas : Element)
  (spectrumHistory : list Uint8Array.t) :
  mounted canvas = true -> hasContext canvas = true ->
  SpectrographVisualizer.reachable spectrumHistory ->
  count isFillRect (drawEffect canvas true spectrumHistory)
  = 256 * (Nat.min 60 (length spectrumHistory) + length spectrumHistory)
  /\ count isFillText (drawEffect canvas true spectrumHistory)
     = match spectrumHistory with [] => 14 | _ => 12 end
  /\ drawEffect canvas false spectrumHistory = []
  /\ (forall other,
        mounted other = false \/ hasContext other = false ->
        drawEffect other true spectrumHistory = []).
Proof.
  intros Hm Hc Hr.
  pose proof (reachable_wellFormed Hr) as Hwf.
  unfold drawEffect. rewrite Hm, Hc. cbn [negb orb].
  split; [|split; [|split]].
  - rewrite !count_app.
    repeat match goal with
           | |- context [count isFillRect (drawSpectrograph ?h ?x ?y ?w ?e)] =>
               rewrite (proj1 (drawSpectrograph_counts h x y w e))
           | |- context [count isFillRect (drawFrequencyScale ?x ?y ?w ?e)] =>
               rewrite (proj1 (drawFrequencyScale_counts x y w e))
           end.
    rewrite (wellFormed_cells Hwf),
      (wellFormed_cells (Forall_firstn_of 60 Hwf)), length_firstn.
    change (count isFillRect _) with 0 at 1.
    change (count isFillRect _) with 0. lia.
  - rewrite !count_app.
    repeat match goal with
           | |- context [count isFillText (drawSpectrograph ?h ?x ?y ?w ?e)] =>
               rewrite (proj2 (drawSpectrograph_counts h x y w e))
           | |- context [count isFillText (drawFrequencyScale ?x ?y ?w ?e)] =>
               rewrite (proj2 (drawFrequencyScale_counts x y w e))
           end.
    destruct spectrumHistory; reflexivity.
  - destruct (mounted canvas); reflexivity.
  - intros other [H|H]; rewrite H; [reflexivity|].
    destruct (mounted other); reflexivity.
Qed.

Lemma spectrograph_paints_one_cell_per_bin_witness :
  mounted Scene.canvas = true
  /\ hasContext Scene.canvas = true
  /\ SpectrographVisualizer.reachable Scene.oneFrame
  /\ count isFillRect (drawEffect Scene.canvas true Scene.oneFrame) = 512.
Proof.
  assert (Hr : SpectrographVisualizer.reachable Scene.oneFrame)
    by (apply SpectrographVisualizer.reachable_effect,
          SpectrographVisualizer.reachable_initial).
  split; [reflexivity|]. split; [reflexivity|]. split; [exact Hr|].
  exact (proj1 (@spectrograph_paints_one_cell_per_bin Scene.canvas
                  Scene.oneFrame eq_refl eq_refl Hr)).
Defined.

End SpectrographPicture.

(** ** The time-series picture *)

Section TimeSeriesPicture.

Import Canvas TimeSeriesDrawing.

(** Among the first [n] indices, those that are multiples of [k]. *)
Lemma multiples_below (k n : nat) :
  0 < k ->
  length (filter (fun j => j mod k =? 0) (seq 0 n)) = (n + k - 1) / k.
Proof.
  intro Hk. induction n as [|n IH].
  - simpl. symmetry. apply Nat.div_small. lia.
  - rewrite seq_S, filter_app, length_app, IH. cbn [filter].
    rewrite (Nat.add_0_l n).
    pose proof (Nat.div_mod_eq n k) as Hdm.
    pose proof (Nat.mod_upper_bound n k ltac:(lia)) as Hr.
    set (q := n / k) in *. set (r := n mod k) in *.
    destruct (Nat.eqb_spec r 0) as [Hr0|Hr0]; cbn [length].
    + replace ((n + k - 1) / k) with q
        by (apply Nat.div_unique with (r := k - 1); nia).
      replace ((S n + k - 1) / k) with (S q)
        by (apply Nat.div_unique with (r := 0); nia).
      lia.
    + replace ((n + k - 1) / k) with (S q)
        by (apply Nat.div_unique with (r := r - 1); nia).
      replace ((S n + k - 1) / k) with (S q)
        by (apply Nat.div_unique with (r := r); nia).
      lia.
Qed.

Lemma drawMarks_count (values : list JS.number) (k : nat)
  (pointSpacing height maxValue : JS.number) :
  forall i,
    count isArc (drawMarks values i k pointSpacing height maxValue)
    = length (filter (fun j => j mod k =? 0) (seq i (length values))).
Proof.
  induction values as [|value rest IH]; intro i; [reflexivity|].
  cbn [drawMarks length seq filter]. unfold count in *.
  rewrite filter_app, length_app, IH.
  destruct (i mod k =? 0); reflexivity.
Qed.

Lemma drawLine_count (values : list JS.number)
  (pointSpacing height maxValue : JS.number) :
  forall i,
    count isArc (drawLine values i pointSpacing height maxValue) = 0
    /\ count isPathPoint (drawLine values i pointSpacing height maxValue)
       = length values.
Proof.
  induction values as [|value rest IH]; intro i; [split; reflexivity|].
  cbn [drawLine]. destruct (IH (S i)) as [Ha Hp]. unfold count in *.
  destruct (i =? 0); cbn [filter isArc isPathPoint length];
    rewrite ?Ha, ?Hp; split; reflexivity.
Qed.

(** The interval between marks is what binary64 arithmetic computes, for
    every length the series can have. *)
Lemma pointInterval_agrees_with_js :
  forallb (fun len =>
             match SFcompare (pointInterval_js len)
                     (JS.of_nat (pointInterval len)) with
             | Some Eq => true
             | _ => false
             end) (seq 0 501) = true.
Proof. vm_compute. reflexivity. Qed.

(** X13. A series of fewer than two points draws the placeholder text and
    nothing else.  Otherwise the line goes through every point once and a
    dot marks every [pointInterval]-th point, [pointInterval] being
    [max(1, floor(n / 50))]: that makes [ceil(n / pointInterval)] dots,
    always fewer than 100, and as many as 99 for a series of 99 points. *)
Theorem time_series_marks (width height : JS.number)
  (timeSeriesData : list JS.number) :
  let n := length timeSeriesData in
  (n < 2 ->
   count isArc (drawSeries width height timeSeriesData) = 0
   /\ count isPathPoint (drawSeries width height timeSeriesData) = 0
   /\ count isFillText (drawSeries width height timeSeriesData) = 1)
  /\ (2 <= n ->
      count isArc (drawSeries width height timeSeriesData)
      = (n + pointInterval n - 1) / pointInterval n
      /\ count isArc (drawSeries width height timeSeriesData) <= 99
      /\ count isPathPoint (drawSeries width height timeSeriesData) = n + 2
      /\ count isFillText (drawSeries width height timeSeriesData) = 0)
  /\ (n = 99 -> count isArc (drawSeries width height timeSeriesData) = 99).
Proof.
  intro n. unfold drawSeries. fold n.
  assert (Hk : 0 < pointInterval n) by (unfold pointInterval; lia).
  assert (Harc : 2 <= n ->
                 count isArc
                   (if n <? 2
                    then [set_font "14px sans-serif";
                          set_fillStyle "rgba(255, 255, 255, 0.5)";
                          set_textAlign "center";
                          fillText "Recording and accumulating data..."
                            (JS.div width (JS.of_Z 2)) (JS.div height (JS.of_Z 2))]
                    else
                      [beginPath]
                      ++ drawLine timeSeriesData 0
                           (JS.div width (JS.of_nat (n - 1))) height
                           (maxValueOf timeSeriesData)
                      ++ [createLinearGradient (JS.of_Z 0) (JS.of_Z 0) (JS.of_Z 0) height;
                          addColorStop (JS.of_Z 0) "#9b87f5";
                          addColorStop (JS.of_Z 1) "#6E59A5";
                          set_strokeStyle_gradient;
                          set_lineWidth (JS.of_Z 2);
                          stroke;
                          lineTo width height;
                          lineTo (JS.of_Z 0) height;
                          closePath;
                          set_fillStyle "rgba(110, 89, 165, 0.1)";
                          fill]
                      ++ drawMarks timeSeriesData 0 (pointInterval n)
                           (JS.div width (JS.of_nat (n - 1))) height
                           (maxValueOf timeSeriesData))
                 = (n + pointInterval n - 1) / pointInterval n).
  { intro Hn.
    replace (n <? 2) with false by (symmetry; apply Nat.ltb_ge; exact Hn).
    rewrite !count_app, drawMarks_count,
      (proj1 (drawLine_count timeSeriesData _ _ _ 0)).
    fold n. rewrite (multiples_below n Hk). reflexivity. }
  split; [|split].
  - intro Hn.
    replace (n <? 2) with true by (symmetry; apply Nat.ltb_lt; exact Hn).
    repeat split; reflexivity.
  - intro Hn. split; [exact (Harc Hn)|]. split.
    + rewrite (Harc Hn). apply Nat.Div0.div_le_upper_bound.
      unfold pointInterval in *.
      pose proof (Nat.div_mod_eq n 50) as Hdm.
      pose proof (Nat.mod_upper_bound n 50 ltac:(lia)) as Hr. lia.
    + replace (n <? 2) with false by (symmetry; apply Nat.ltb_ge; exact Hn).
      rewrite !count_app.
      rewrite (proj2 (drawLine_count timeSeriesData _ _ _ 0)).
      fold n.
      assert (Hmp : forall l i k a b c,
                 count isPathPoint (drawMarks l i k a b c) = 0
                 /\ count isFillText (drawMarks l i k a b c) = 0).
      { induction l as [|v rest IH]; intros; [split; reflexivity|].
        cbn [drawMarks]. rewrite !count_app.
        destruct (IH (S i) k a b c) as [-> ->].
        destruct (i mod k =? 0); split; reflexivity. }
      assert (Hlt : forall l i a b c,
                 count isFillText (drawLine l i a b c) = 0).
      { induction l as [|v rest IH]; intros; [reflexivity|].
        cbn [drawLine]. specialize (IH (S i) a b c). unfold count in *.
        destruct (i =? 0); cbn [filter isFillText]; exact IH. }
      rewrite (proj1 (Hmp _ _ _ _ _ _)), (proj2 (Hmp _ _ _ _ _ _)), Hlt.
      split; [cbn; lia|reflexivity].
  - intro Hn. rewrite (Harc ltac:(lia)), Hn. reflexivity.
Qed.

Lemma Math_max_nan (a b : JS.number) :
  JS.Math_max a b = S754_nan <-> a = S754_nan \/ b = S754_nan.
Proof.
  unfold JS.Math_max. split.
  - destruct (SFcompare a b) as [[| |]|] eqn:E.
    + destruct a as [[|]| | |]; auto.
    + auto.
    + auto.
    + intros _.
      destruct a as [sa|sa| |sa ma ea], b as [sb|sb| |sb mb eb];
        simpl in E; try discriminate; auto;
        try (destruct sa; discriminate).
  - intros [->| ->]; [reflexivity|].
    destruct a; reflexivity.
Qed.

Lemma fold_Math_max_nan (l : list JS.number) :
  forall init,
    fold_left JS.Math_max l init = S754_nan
    <-> init = S754_nan \/ In S754_nan l.
Proof.
  induction l as [|x rest IH]; intro init; cbn [fold_left In].
  - tauto.
  - rewrite IH, Math_max_nan. intuition congruence.
Qed.

(** X14. The value the ordinates are divided by is never zero and never
    negative: [Math.max(...timeSeriesData, 0.01)] is NaN exactly when a
    data point is NaN, and otherwise a positive number (finite, or
    infinite if a data point is). *)
Theorem maxValue_is_positive_or_nan (timeSeriesData : list JS.number) :
  (maxValueOf timeSeriesData = S754_nan <-> In S754_nan timeSeriesData)
  /\ (~ In S754_nan timeSeriesData ->
      maxValueOf timeSeriesData = S754_infinity false
      \/ exists m e, maxValueOf timeSeriesData = S754_finite false m e).
Proof.
  unfold maxValueOf. rewrite fold_left_app. cbn [fold_left].
  set (highest := fold_left JS.Math_max timeSeriesData (S754_infinity true)).
  assert (Hh : highest = S754_nan <-> In S754_nan timeSeriesData).
  { unfold highest. rewrite fold_Math_max_nan. intuition discriminate. }
  change (ratio 1 100) with (S754_finite false 5764607523034235 (-59)).
  split.
  - rewrite Math_max_nan. rewrite Hh. intuition discriminate.
  - intro Hnn. assert (Hne : highest <> S754_nan) by (rewrite Hh; exact Hnn).
    unfold JS.Math_max.
    destruct highest as [s|[|]| |[|] m e]; cbn [SFcompare]; try congruence;
      eauto.
    destruct (Z.compare e (-59)); eauto.
    destruct (Pos.compare_cont Eq m 5764607523034235); eauto.
Qed.

End TimeSeriesPicture.

(** ** The spectrum bars *)

Section SpectrumBars.

Import Canvas SpectrumVisualizer.

Lemma get_in_range (audioData : Float32Array.t) (i : nat) :
  i < length audioData -> exists sample, Float32Array.get audioData i = Some sample.
Proof.
  intro Hi. unfold Float32Array.get.
  destruct (nth_error audioData i) as [v|] eqn:E.
  - eexists. reflexivity.
  - apply nth_error_None in E. lia.
Qed.

(** The loop leaves through its own tests: with fuel for the iterations
    still to come, it paints one bar for every fourth index below both the
    length and 512. *)
Lemma barsFrom_count (audioData : Float32Array.t) (barWidth height : JS.number) :
  forall fuel i,
    (Nat.min (length audioData) 512 + 3 - i) / 4 <= fuel ->
    count isFillRect (barsFrom fuel i audioData barWidth height)
    = (Nat.min (length audioData) 512 + 3 - i) / 4.
Proof.
  induction fuel as [|fuel IH]; intros i Hfuel.
  - cbn [barsFrom]. unfold count. cbn [filter length]. lia.
  - cbn [barsFrom].
    destruct (Nat.ltb_spec i (length audioData)) as [Hlen|Hlen].
    + change (128 * 4) with 512.
      destruct (Nat.leb_spec 512 i) as [Hcap|Hcap].
      * unfold count. cbn [filter length]. symmetry.
        apply Nat.div_small. lia.
      * destruct (get_in_range audioData Hlen) as [sample ->].
        rewrite count_app.
        assert (Hstep : (Nat.min (length audioData) 512 + 3 - i) / 4
                        = S ((Nat.min (length audioData) 512 + 3 - (i + 4)) / 4)).
        { replace (Nat.min (length audioData) 512 + 3 - i)
            with (Nat.min (length audioData) 512 + 3 - (i + 4) + 1 * 4) by lia.
          rewrite Nat.div_add by lia. lia. }
        rewrite IH by lia. rewrite Hstep. reflexivity.
    + unfold count. cbn [filter length]. symmetry.
      apply Nat.div_small. lia.
Qed.

(** X15. The spectrum view paints one bar for every fourth sample and at
    most 128 bars: a buffer of [n] samples gives [min(128, ceil(n / 4))]
    bars, none for an empty buffer. *)
Theorem spectrum_bar_count (width height : JS.number)
  (audioData : Float32Array.t) :
  count isFillRect (drawBars width height audioData)
  = Nat.min 128 ((length audioData + 3) / 4)
  /\ count isFillRect (drawBars width height audioData) <= 128.
Proof.
  assert (H : count isFillRect (drawBars width height audioData)
              = Nat.min 128 ((length audioData + 3) / 4)).
  { unfold drawBars. rewrite barsFrom_count.
    - rewrite Nat.sub_0_r.
      destruct (Nat.le_gt_cases (length audioData) 512) as [Hle|Hgt].
      + rewrite Nat.min_l by exact Hle.
        assert ((length audioData + 3) / 4 <= (512 + 3) / 4)
          by (apply Nat.Div0.div_le_mono; lia).
        change ((512 + 3) / 4) with 128 in *. lia.
      + rewrite Nat.min_r by lia.
        assert (128 <= (length audioData + 3) / 4)
          by (apply Nat.div_le_lower_bound; lia).
        change ((512 + 3) / 4) with 128. lia.
    - rewrite Nat.sub_0_r.
      destruct audioData as [|v rest]; [cbn; lia|].
      apply Nat.Div0.div_le_upper_bound. cbn [length]. lia. }
  split; [exact H|]. rewrite H. lia.
Qed.

End SpectrumBars.

(** ** The data points of the time series *)

Section DataPoints.

Import TimeSeriesVisualizer.

Local Open Scope Z_scope.

Lemma shr_nonneg (r : shr_record) (e n : Z) :
  0 <= shr_m r -> 0 <= shr_m (fst (shr r e n)).
Proof.
  intro Hr. unfold shr. destruct n as [|p|p]; cbn [fst]; try exact Hr.
  refine (@iter_pos_invariant _ shr_1 (fun _ x => 0 <= shr_m x) _ p 0 r
            (Z.le_refl 0) Hr).
  intros k x _ Hx. rewrite (proj1 (shr_1_fields x Hx)).
  apply Z.div_pos; lia.
Qed.

Lemma shr_fexp_nonneg (prec emax m e : Z) (l : location) :
  0 <= m ->
  0 <= shr_m (fst (shr_fexp prec emax m e l))
  /\ 0 <= round_nearest_even (shr_m (fst (shr_fexp prec emax m e l)))
            (loc_of_shr_record (fst (shr_fexp prec emax m e l))).
Proof.
  intro Hm. unfold shr_fexp.
  assert (H0 : 0 <= shr_m (shr_record_of_loc m l))
    by (destruct l as [|[| |]]; exact Hm).
  pose proof (shr_nonneg (shr_record_of_loc m l) e
                (fexp prec emax (Zdigits2 m + e) - e) H0) as H.
  split; [exact H|].
  destruct (fst (shr _ _ _)) as [m' [|] [|]];
    cbn [shr_m loc_of_shr_record round_nearest_even] in *;
    try destruct (Z.even m'); lia.
Qed.

(** Rounding a non-negative mantissa gives a zero, an infinity or a finite
    number of the sign asked for, never NaN. *)
Lemma binary_round_aux_sign (prec emax : Z) (sx : bool) (mx ex : Z)
  (lx : location) :
  0 <= mx ->
  match binary_round_aux prec emax sx mx ex lx with
  | S754_zero s | S754_infinity s | S754_finite s _ _ => s = sx
  | S754_nan => False
  end.
Proof.
  intro Hmx. unfold binary_round_aux.
  destruct (shr_fexp_nonneg prec emax ex lx Hmx) as [_ Hround].
  destruct (shr_fexp prec emax mx ex lx) as [r1 e1]. cbn [fst] in Hround.
  destruct (shr_fexp_nonneg prec emax e1 loc_Exact Hround) as [Hr2 _].
  destruct (shr_fexp prec emax _ e1 loc_Exact) as [r2 e2]. cbn [fst] in Hr2.
  destruct (shr_m r2) as [|m|m]; [reflexivity| |lia].
  destruct (e2 <=? emax - prec); reflexivity.
Qed.

Lemma binary_round_sign (prec emax : Z) (s : bool) (m : positive) (e : Z) :
  match binary_round prec emax s m e with
  | S754_zero s' | S754_infinity s' | S754_finite s' _ _ => s' = s
  | S754_nan => False
  end.
Proof.
  unfold binary_round. destruct (shl_align m e _) as [mz ez].
  apply binary_round_aux_sign. lia.
Qed.

Lemma nonNegative_of_sign (x : JS.number) :
  match x with
  | S754_zero s | S754_infinity s | S754_finite s _ _ => s = false
  | S754_nan => False
  end ->
  Sign.nonNegative x = true.
Proof. destruct x as [s|s| |s m e]; intro H; subst; easy. Qed.

Lemma abs_promote_nonNegative (v : JS.number) :
  v <> S754_nan -> Sign.nonNegative (JS.Math_abs (JS.promote v)) = true.
Proof.
  destruct v as [s|s| |s m e]; intro H; try reflexivity; [congruence|].
  cbn [JS.promote]. pose proof (binary_round_sign 53 1024 s m e) as Hs.
  destruct (binary_round 53 1024 s m e); try reflexivity. contradiction.
Qed.

Lemma add_nonNegative (x y : JS.number) :
  Sign.nonNegative x = true -> Sign.nonNegative y = true ->
  Sign.nonNegative (JS.add x y) = true.
Proof.
  destruct x as [[|]|[|]| |[|] mx ex], y as [[|]|[|]| |[|] my ey];
    try discriminate; try reflexivity.
  intros _ _. unfold JS.add, SFadd. cbn [cond_Zopp].
  apply nonNegative_of_sign.
  unfold binary_normalize.
  destruct (Z.pos _ + Z.pos _) as [|p|p] eqn:E; try lia; try reflexivity.
  apply binary_round_sign.
Qed.

Lemma add_nan_l (y : JS.number) : JS.add S754_nan y = S754_nan.
Proof. reflexivity. Qed.

Lemma add_nan_r (x : JS.number) : JS.add x S754_nan = S754_nan.
Proof. destruct x; reflexivity. Qed.

(** The running sum of magnitudes: NaN as soon as a sample is NaN,
    otherwise non-negative. *)
Lemma sum_of_magnitudes (audioData : Float32Array.t) :
  forall sum,
    (sum = S754_nan \/ Sign.nonNegative sum = true) ->
    let total :=
      fold_left (fun acc value => JS.add acc (JS.Math_abs (JS.promote value)))
        audioData sum in
    (total = S754_nan <-> sum = S754_nan \/ In S754_nan audioData)
    /\ (total = S754_nan \/ Sign.nonNegative total = true).
Proof.
  induction audioData as [|v rest IH]; intros sum Hsum; cbn [fold_left In].
  - split; [|exact Hsum]. tauto.
  - destruct (IH (JS.add sum (JS.Math_abs (JS.promote v)))) as [Hiff Hcls].
    + destruct Hsum as [->|Hs]; [left; reflexivity|].
      destruct v as [s|s| |s m e].
      * right. apply add_nonNegative; [exact Hs|reflexivity].
      * right. apply add_nonNegative; [exact Hs|reflexivity].
      * left. apply add_nan_r.
      * right. apply add_nonNegative; [exact Hs|].
        apply abs_promote_nonNegative. discriminate.
    + split; [|exact Hcls].
      rewrite Hiff. split.
      * intros [Hn|Hin]; [|auto].
        destruct Hsum as [->|Hs]; [auto|].
        destruct v as [s|s| |s m e]; auto; exfalso.
        -- pose proof (add_nonNegative sum (JS.Math_abs (JS.promote (S754_zero s)))
                         Hs eq_refl) as H.
           rewrite Hn in H. discriminate.
        -- pose proof (add_nonNegative sum
                         (JS.Math_abs (JS.promote (S754_infinity s)))
                         Hs eq_refl) as H.
           rewrite Hn in H. discriminate.
        -- pose proof (add_nonNegative sum _ Hs
                         (@abs_promote_nonNegative (S754_finite s m e)
                            ltac:(discriminate))) as H.
           rewrite Hn in H. discriminate.
      * intros [->|[->|Hin]]; auto.
        left. apply add_nan_r.
Qed.

Lemma of_nat_nonNegative (n : nat) : Sign.nonNegative (JS.of_nat n) = true.
Proof.
  unfold JS.of_nat, JS.of_Z, binary_normalize.
  destruct (Z.of_nat n) as [|p|p] eqn:E; try lia; [reflexivity|].
  apply nonNegative_of_sign, binary_round_sign.
Qed.

Lemma div_nonNegative (x y : JS.number) :
  Sign.nonNegative x = true -> Sign.nonNegative y = true ->
  JS.div x y = S754_nan \/ Sign.nonNegative (JS.div x y) = true.
Proof.
  destruct x as [[|]|[|]| |[|] mx ex], y as [[|]|[|]| |[|] my ey];
    try discriminate; intros _ _; try (left; reflexivity);
    try (right; reflexivity).
  right. unfold JS.div, SFdiv. cbn [xorb].
  destruct (SFdiv_core_binary 53 1024 (Z.pos mx) ex (Z.pos my) ey)
    as [[mz ez] lz] eqn:E.
  apply nonNegative_of_sign, binary_round_aux_sign.
  revert E. unfold SFdiv_core_binary.
  set (shift := Z.min _ _ ). set (d := ex - ey - shift).
  set (m' := match d with
             | 0 => Z.pos mx
             | Z.pos _ => Z.shiftl (Z.pos mx) d
             | Z.neg _ => 0
             end).
  assert (Hm' : 0 <= m').
  { unfold m'. destruct d; try lia. apply Z.shiftl_nonneg. lia. }
  destruct (Z.div_eucl m' (Z.pos my)) as [q r] eqn:Ediv.
  intro H. injection H as <- _ _.
  assert (Hq : q = m' / Z.pos my) by (unfold Z.div; rewrite Ediv; reflexivity).
  rewrite Hq. apply Z.div_pos; lia.
Qed.

(** X16. A data point of the time series, the mean magnitude of a buffer,
    is never negative: it is NaN or a number with a clear sign bit.  It is
    NaN when the buffer is empty (0 / 0) and when a sample is NaN. *)
Theorem data_point_is_nonnegative_or_nan (audioData : Float32Array.t) :
  (newDataPoint audioData = S754_nan
   \/ Sign.nonNegative (newDataPoint audioData) = true)
  /\ (audioData = [] -> newDataPoint audioData = S754_nan)
  /\ (In S754_nan audioData -> newDataPoint audioData = S754_nan).
Proof.
  unfold newDataPoint, Float32Array.reduce.
  destruct (@sum_of_magnitudes audioData (JS.of_Z 0) (or_intror eq_refl))
    as [Hiff Hcls].
  cbv zeta in Hiff, Hcls.
  split; [|split].
  - destruct Hcls as [->|Hs]; [left; reflexivity|].
    apply div_nonNegative; [exact Hs|apply of_nat_nonNegative].
  - intros ->. reflexivity.
  - intro Hin. rewrite (proj2 Hiff (or_intror Hin)). reflexivity.
Qed.

End DataPoints.
